(** * LiveLab front end: landing page handlers and the visualizer core

  A shallow embedding of the operator-facing handlers of the LiveLab
  front end (the React landing page [Landing] and the static control page
  [index.html]) together with the kinematic model, pose synchronizer and
  session controller that the visualizer is specified to provide.

  The handlers are asynchronous JavaScript functions with
  [try]/[catch]/[finally]; they are embedded in a small state-and-exception
  monad that threads the component state, the browser's media tracks and
  the trace of observable effects (requests, toasts, navigations). *)

From Stdlib Require Import ZArith QArith String List Bool Lia.
From stdpp Require Import base option list strings gmap.

Open Scope string_scope.
Open Scope Z_scope.

(** ** JavaScript values, as far as the handlers look at them *)

Module Js.

(** The result of [response.json()] is untyped ([any]); the handlers read
    properties of it and test them for truthiness. *)
#[warnings="-register-all"]
Inductive value : Type :=
| VUndefined
| VNull
| VBool (b : bool)
| VNum (z : Z)
| VStr (s : string)
| VArr (xs : list value)
| VObj (fields : list (string * value)).

(** What a handler can throw or a promise can reject with. *)
Inductive error : Type :=
| TypeError (message : string)
| SyntaxError (message : string)
| DOMException (name message : string).

Definition error_message (e : error) : string :=
  match e with
  | TypeError m | SyntaxError m | DOMException _ m => m
  end.

(** ToBoolean.  A number is falsy exactly when it is zero (JSON has no
    NaN), a string exactly when it is empty; arrays and objects are always
    truthy, the empty ones too. *)
Definition truthy (v : value) : bool :=
  match v with
  | VUndefined | VNull => false
  | VBool b => b
  | VNum z => negb (z =? 0)
  | VStr s => negb (String.eqb s "")
  | VArr _ | VObj _ => true
  end.

(** [a || b] *)
Definition logical_or (a b : value) : value := if truthy a then a else b.

(** [!s] for a string [s] *)
Definition not_str (s : string) : bool := String.eqb s "".

(** Own property of a parsed JSON object; [JSON.parse] keeps the last of
    duplicate keys, so [fields] lists each key once. *)
Fixpoint own_prop (fields : list (string * value)) (k : string) : value :=
  match fields with
  | [] => VUndefined
  | (k', v) :: rest => if String.eqb k' k then v else own_prop rest k
  end.

(** [v.k] for the property names the pages read ([message],
    [leader_configs], [follower_configs]), none of which a built-in
    prototype defines: reading from [null] or [undefined] throws, reading
    from a primitive or an array yields [undefined]. *)
Definition get_prop (v : value) (k : string) : error + value :=
  match v with
  | VUndefined =>
      inl (TypeError ("Cannot read properties of undefined (reading '" ++ k ++ "')"))
  | VNull =>
      inl (TypeError ("Cannot read properties of null (reading '" ++ k ++ "')"))
  | VObj fields => inr (own_prop fields k)
  | VBool _ | VNum _ | VStr _ | VArr _ => inr VUndefined
  end.

(** The elements [v.forEach(f)] visits: only an array has [forEach]. *)
Definition forEach_items (v : value) (what : string) : error + list value :=
  match v with
  | VArr xs => inr xs
  | VUndefined =>
      inl (TypeError "Cannot read properties of undefined (reading 'forEach')")
  | VNull =>
      inl (TypeError "Cannot read properties of null (reading 'forEach')")
  | _ => inl (TypeError (what ++ ".forEach is not a function"))
  end.

End Js.

(** ** The browser as the handlers see it *)

Module Browser.
Import Js.

Record request : Type := Request {
  url : string;
  method : string;
  headers : list (string * string);
  (** the value handed to [JSON.stringify], when a body is sent *)
  body : option value
}.

Inductive variant : Type := Default | Destructive.

Record toast_args : Type := Toast {
  title : string;
  description : value;
  toast_variant : variant
}.

(** Observable effects, in the order the handler performs them.  Media
    tracks are named by a number. *)
Inductive effect : Type :=
| EFetch (r : request)
| EToast (t : toast_args)
| ENavigate (path : string)
| EGetUserMedia (video audio : bool)
| EStopTrack (track : nat).

(** How the awaited [fetch] and [response.json()] turn out. *)
Inductive fetch_outcome : Type :=
| FetchRejected (e : error)
| FetchResponse (ok : bool) (json : error + value).

(** How the awaited [getUserMedia] turns out: rejected, or a stream with
    its tracks. *)
Inductive media_outcome : Type :=
| MediaRejected (e : error)
| MediaStream (tracks : list nat).

(** The second argument of [fetch]; without it the request is a GET with no
    headers and no body. *)
Definition request_of (u : string) (init : option (string * list (string * string) * value))
  : request :=
  match init with
  | None => Request u "GET" [] None
  | Some (m, h, b) => Request u m h (Some b)
  end.

Definition is_fetch (e : effect) : bool :=
  match e with EFetch _ => true | _ => false end.

Definition is_navigate (e : effect) : bool :=
  match e with ENavigate _ => true | _ => false end.

End Browser.

(** ** A monad for one run of an asynchronous handler

    A handler runs against a store holding the component (or page) state,
    the set of media tracks that have been stopped and the effects performed
    so far.  Each [await] is resolved by an outcome supplied by the caller,
    so a run is a function of the state and of what the browser answers. *)

Module Handler.
Import Js Browser.

Record store (S : Type) : Type := Store {
  state : S;
  stopped : gset nat;
  trace : list effect
}.
Arguments Store {S} _ _ _.
Arguments state {S} _.
Arguments stopped {S} _.
Arguments trace {S} _.

Definition M (S A : Type) : Type := store S -> (error + A) * store S.

Definition ret {S A} (a : A) : M S A := fun σ => (inr a, σ).

Definition throw {S A} (e : error) : M S A := fun σ => (inl e, σ).

Definition bind {S A B} (c : M S A) (k : A -> M S B) : M S B :=
  fun σ =>
    match c σ with
    | (inr a, σ') => k a σ'
    | (inl e, σ') => (inl e, σ')
    end.

Notation "'do' x <- c ; k" := (bind c (fun x => k))
  (at level 10, x name, c at level 100, k at level 200, only parsing).
Notation "'do' ' pat <- c ; k" := (bind c (fun x => match x with pat => k end))
  (at level 10, pat pattern, c at level 100, k at level 200, only parsing).
Notation "'exec' c ; k" := (bind c (fun _ => k))
  (at level 10, c at level 100, k at level 200, only parsing).

(** [try { body } catch (error) { handler }] *)
Definition try_catch {S A} (body : M S A) (handler : error -> M S A) : M S A :=
  fun σ =>
    match body σ with
    | (inr a, σ') => (inr a, σ')
    | (inl e, σ') => handler e σ'
    end.

(** [try { body } finally { fin }]: [fin] runs however [body] ends; what
    [body] returned or threw stands unless [fin] itself throws. *)
Definition try_finally {S A} (body : M S A) (fin : M S unit) : M S A :=
  fun σ =>
    match body σ with
    | (r, σ') =>
        match fin σ' with
        | (inr _, σ'') => (r, σ'')
        | (inl e, σ'') => (inl e, σ'')
        end
    end.

Definition lift {S A} (r : error + A) : M S A :=
  match r with inl e => throw e | inr a => ret a end.

Definition emit {S} (e : effect) : M S unit :=
  fun σ => (inr tt, Store (state σ) (stopped σ) (trace σ ++ [e])).

Definition modify {S} (f : S -> S) : M S unit :=
  fun σ => (inr tt, Store (f (state σ)) (stopped σ) (trace σ)).

(** [await fetch(url, init)]: the request goes out, then the promise
    rejects or resolves to a response. *)
Definition fetch {S} (u : string)
    (init : option (string * list (string * string) * value))
    (w : fetch_outcome) : M S (bool * (error + value)) :=
  exec emit (EFetch (request_of u init)) ;
  match w with
  | FetchRejected e => throw e
  | FetchResponse ok j => ret (ok, j)
  end.

(** [await response.json()] *)
Definition json {S} (response : bool * (error + value)) : M S value :=
  lift (snd response).

(** [response.ok] *)
Definition ok (response : bool * (error + value)) : bool := fst response.

Definition prop {S} (v : value) (k : string) : M S value := lift (get_prop v k).

Definition toast {S} (t : toast_args) : M S unit := emit (EToast t).

Definition navigate {S} (path : string) : M S unit := emit (ENavigate path).

(** [await navigator.mediaDevices.getUserMedia({ video, audio })] *)
Definition getUserMedia {S} (video audio : bool) (w : media_outcome)
  : M S (list nat) :=
  exec emit (EGetUserMedia video audio) ;
  match w with
  | MediaRejected e => throw e
  | MediaStream tracks => ret tracks
  end.

(** [track.stop()]: the track ends for good. *)
Definition stop {S} (track : nat) : M S unit :=
  fun σ => (inr tt,
            Store (state σ) ({[track]} ∪ stopped σ) (trace σ ++ [EStopTrack track])).

(** [xs.forEach(f)] *)
Fixpoint forEach {S A} (xs : list A) (f : A -> M S unit) : M S unit :=
  match xs with
  | [] => ret tt
  | x :: rest => exec f x ; forEach rest f
  end.

(** A run from a given state, with no track stopped and nothing done yet. *)
Definition run {S A} (s : S) (c : M S A) : (error + A) * store S :=
  c (Store s ∅ []).

Definition final {S A} (r : (error + A) * store S) : S := state (snd r).
Definition effects {S A} (r : (error + A) * store S) : list effect := trace (snd r).
Definition ended {S A} (r : (error + A) * store S) : gset nat := stopped (snd r).
Definition completed {S A} (r : (error + A) * store S) : bool :=
  match fst r with inr _ => true | inl _ => false end.

(** A computation is silent when it performs no effect and stops no track:
    it may only change the state or throw. *)
Definition silent {S A} (c : M S A) : Prop :=
  ∀ σ, trace (snd (c σ)) = trace σ ∧ stopped (snd (c σ)) = stopped σ.

(** The store right after a request has gone out. *)
Definition sent {S} (r : request) (σ : store S) : store S :=
  Store (state σ) (stopped σ) (trace σ ++ [EFetch r]).

End Handler.

(** ** The landing page ([Landing], routed at [/]) *)

Module Landing.
Import Js Browser Handler.

(** The component's [useState] cells.  [leaderConfigs] and
    [followerConfigs] are declared [string[]] but receive whatever the
    backend's JSON holds, so they are values here. *)
Record State : Type := mkState {
  robotModel : string;
  showPermissionModal : bool;
  showTeleoperationModal : bool;
  leaderPort : string;
  followerPort : string;
  leaderConfig : string;
  followerConfig : string;
  leaderConfigs : value;
  followerConfigs : value;
  isLoadingConfigs : bool
}.

(** The state of the first render. *)
Definition initialState : State :=
  {| robotModel := "";
     showPermissionModal := false;
     showTeleoperationModal := false;
     leaderPort := "/dev/tty.usbmodem5A460816421";
     followerPort := "/dev/tty.usbmodem5A460816621";
     leaderConfig := "";
     followerConfig := "";
     leaderConfigs := VArr [];
     followerConfigs := VArr [];
     isLoadingConfigs := false |}.

Definition setShowPermissionModal (b : bool) : M State unit :=
  modify (fun s =>
    mkState (robotModel s) b (showTeleoperationModal s) (leaderPort s)
      (followerPort s) (leaderConfig s) (followerConfig s) (leaderConfigs s)
      (followerConfigs s) (isLoadingConfigs s)).

Definition setShowTeleoperationModal (b : bool) : M State unit :=
  modify (fun s =>
    mkState (robotModel s) (showPermissionModal s) b (leaderPort s)
      (followerPort s) (leaderConfig s) (followerConfig s) (leaderConfigs s)
      (followerConfigs s) (isLoadingConfigs s)).

Definition setLeaderConfigs (v : value) : M State unit :=
  modify (fun s =>
    mkState (robotModel s) (showPermissionModal s) (showTeleoperationModal s)
      (leaderPort s) (followerPort s) (leaderConfig s) (followerConfig s) v
      (followerConfigs s) (isLoadingConfigs s)).

Definition setFollowerConfigs (v : value) : M State unit :=
  modify (fun s =>
    mkState (robotModel s) (showPermissionModal s) (showTeleoperationModal s)
      (leaderPort s) (followerPort s) (leaderConfig s) (followerConfig s)
      (leaderConfigs s) v (isLoadingConfigs s)).

Definition setIsLoadingConfigs (b : bool) : M State unit :=
  modify (fun s =>
    mkState (robotModel s) (showPermissionModal s) (showTeleoperationModal s)
      (leaderPort s) (followerPort s) (leaderConfig s) (followerConfig s)
      (leaderConfigs s) (followerConfigs s) b).

Definition loadConfigs (w : fetch_outcome) : M State unit :=
  exec setIsLoadingConfigs true ;
  try_finally
    (try_catch
       (do response <- fetch "http://localhost:8000/get-configs" None w ;
        do data <- json response ;
        do leader_configs <- prop data "leader_configs" ;
        exec setLeaderConfigs (logical_or leader_configs (VArr [])) ;
        do follower_configs <- prop data "follower_configs" ;
        setFollowerConfigs (logical_or follower_configs (VArr [])))
       (fun _ =>
          toast {| title := "Error Loading Configs";
                   description :=
                     VStr "Could not load calibration configs from the backend.";
                   toast_variant := Destructive |}))
    (setIsLoadingConfigs false).

(** The handlers below close over the values of the render they were created
    in; [c] is that render's state. *)

Definition handleBeginSession (c : State) : M State unit :=
  if negb (not_str (robotModel c)) then setShowPermissionModal true else ret tt.

(** The click on "Teleoperation", followed through until the [loadConfigs]
    call it starts has settled.  The handler itself does not wait for that
    call: what has happened when it returns is
    [LandingView.handleTeleoperationClickReturn]. *)
Definition handleTeleoperationClick (c : State) (w : fetch_outcome) : M State unit :=
  if negb (not_str (robotModel c)) then
    exec setShowTeleoperationModal true ;
    loadConfigs w
  else ret tt.

(** The object given to [JSON.stringify] for the request body. *)
Definition moveArmBody (c : State) : value :=
  VObj [("leader_port", VStr (leaderPort c));
        ("follower_port", VStr (followerPort c));
        ("leader_config", VStr (leaderConfig c));
        ("follower_config", VStr (followerConfig c))].

Definition moveArmRequest (c : State) : request :=
  request_of "http://localhost:8000/move-arm"
    (Some ("POST", [("Content-Type", "application/json")], moveArmBody c)).

Definition missingConfiguration : toast_args :=
  {| title := "Missing Configuration";
     description :=
       VStr "Please select calibration configs for both leader and follower.";
     toast_variant := Destructive |}.

Definition handleStartTeleoperation (c : State) (w : fetch_outcome) : M State unit :=
  if not_str (leaderConfig c) || not_str (followerConfig c) then
    toast missingConfiguration
  else
    try_catch
      (do response <-
          fetch "http://localhost:8000/move-arm"
            (Some ("POST", [("Content-Type", "application/json")], moveArmBody c)) w ;
       do data <- json response ;
       if ok response then
         do message <- prop data "message" ;
         exec toast {| title := "Teleoperation Started";
                       description :=
                         logical_or message
                           (VStr "Successfully started teleoperation session.");
                       toast_variant := Default |} ;
         exec setShowTeleoperationModal false ;
         navigate "/teleoperation"
       else
         do message <- prop data "message" ;
         toast {| title := "Error Starting Teleoperation";
                  description :=
                    logical_or message (VStr "Failed to start teleoperation session.");
                  toast_variant := Destructive |})
      (fun _ =>
         toast {| title := "Connection Error";
                  description := VStr "Could not connect to the backend server.";
                  toast_variant := Destructive |}).

Definition permissionsGranted : toast_args :=
  {| title := "Permissions Granted";
     description :=
       VStr "Camera and microphone access enabled. Entering control session...";
     toast_variant := Default |}.

Definition permissionRequired : toast_args :=
  {| title := "Permission Denied";
     description :=
       VStr "Camera and microphone access is required for robot control.";
     toast_variant := Destructive |}.

Definition permissionDeclined : toast_args :=
  {| title := "Permission Denied";
     description := VStr "You can proceed, but with limited functionality.";
     toast_variant := Destructive |}.

Definition handlePermissions (allow : bool) (w : media_outcome) : M State unit :=
  exec setShowPermissionModal false ;
  if allow then
    try_catch
      (do stream <- getUserMedia true true w ;
       exec forEach stream (fun track => stop track) ;
       exec toast permissionsGranted ;
       navigate "/control")
      (fun _ => toast permissionRequired)
  else
    exec toast permissionDeclined ;
    navigate "/control".

(** A render in which the operator has picked a robot and both calibration
    configs. *)
Definition configuredState : State :=
  {| robotModel := "SO100";
     showPermissionModal := false;
     showTeleoperationModal := true;
     leaderPort := "/dev/tty.usbmodem5A460816421";
     followerPort := "/dev/tty.usbmodem5A460816621";
     leaderConfig := "so100_leader";
     followerConfig := "so100_follower";
     leaderConfigs := VArr [VStr "so100_leader"];
     followerConfigs := VArr [VStr "so100_follower"];
     isLoadingConfigs := false |}.

(** The operator has gone on to the control session when the handler has
    navigated to the route of the control view. *)
Definition proceeds_to_control (r : (error + unit) * store State) : Prop :=
  ENavigate "/control" ∈ effects r.

(** The outcomes of the permission step in which access is not granted:
    the operator chose "Continue without", or chose "Allow Access" and the
    browser rejected the request. *)
Definition access_not_granted (allow : bool) (w : media_outcome) : Prop :=
  allow = false ∨ ∃ e, w = MediaRejected e.

End Landing.

(** ** The static control page ([index.html]) *)

Module StaticPage.
Import Js Browser Handler.

(** What the script writes in the document: the options of the two
    [select] elements (each held as the value assigned to [option.value])
    and the value assigned to the [textContent] of [#response]. *)
Record Page : Type := mkPage {
  leaderOptions : list value;
  followerOptions : list value;
  response : value
}.

(** The document as it is parsed: one placeholder option per [select]. *)
Definition initialPage : Page :=
  {| leaderOptions := [VStr ""]; followerOptions := [VStr ""]; response := VStr "" |}.

(** What [moveArm] reads from the document: the [value] of the two inputs
    and of the two [select] elements at the time of the click. *)
Record Form : Type := mkForm {
  followerPort : string;
  leaderPort : string;
  leaderConfig : string;
  followerConfig : string
}.

(** A filled-in form. *)
Definition configuredForm : Form :=
  {| followerPort := "/dev/tty.usbmodem5A460816421";
     leaderPort := "/dev/tty.usbmodem5A460816621";
     leaderConfig := "so100_leader";
     followerConfig := "so100_follower" |}.

Definition setLeaderOptions (xs : list value) : M Page unit :=
  modify (fun p => mkPage xs (followerOptions p) (response p)).

Definition setFollowerOptions (xs : list value) : M Page unit :=
  modify (fun p => mkPage (leaderOptions p) xs (response p)).

Definition appendLeaderOption (v : value) : M Page unit :=
  modify (fun p => mkPage (leaderOptions p ++ [v]) (followerOptions p) (response p)).

Definition appendFollowerOption (v : value) : M Page unit :=
  modify (fun p => mkPage (leaderOptions p) (followerOptions p ++ [v]) (response p)).

Definition setResponse (v : value) : M Page unit :=
  modify (fun p => mkPage (leaderOptions p) (followerOptions p) v).

Definition getConfigsRequest : request := request_of "/get-configs" None.

Definition onload (w : fetch_outcome) : M Page unit :=
  try_catch
    (do response <- fetch "/get-configs" None w ;
     do data <- json response ;
     exec setLeaderOptions [] ;
     exec setFollowerOptions [] ;
     do leader_configs <- prop data "leader_configs" ;
     do leader_items <- lift (forEach_items leader_configs "data.leader_configs") ;
     exec forEach leader_items (fun config => appendLeaderOption config) ;
     do follower_configs <- prop data "follower_configs" ;
     do follower_items <- lift (forEach_items follower_configs "data.follower_configs") ;
     forEach follower_items (fun config => appendFollowerOption config))
    (fun error =>
       setResponse (VStr ("Error loading configs: " ++ error_message error))).

Definition moveArmBody (f : Form) : value :=
  VObj [("leader_port", VStr (leaderPort f));
        ("follower_port", VStr (followerPort f));
        ("leader_config", VStr (leaderConfig f));
        ("follower_config", VStr (followerConfig f))].

Definition moveArmRequest (f : Form) : request :=
  request_of "/move-arm"
    (Some ("POST", [("Content-Type", "application/json")], moveArmBody f)).

Definition moveArm (f : Form) (w : fetch_outcome) : M Page unit :=
  if not_str (leaderConfig f) || not_str (followerConfig f) then
    setResponse
      (VStr "Please select calibration configs for both leader and follower")
  else
    try_catch
      (do response <-
          fetch "/move-arm"
            (Some ("POST", [("Content-Type", "application/json")], moveArmBody f)) w ;
       do data <- json response ;
       do message <- prop data "message" ;
       setResponse message)
      (fun error => setResponse (VStr ("Error: " ++ error_message error))).

End StaticPage.

(** ** The kinematic model *)

Module Kinematics.

(** Modelled from the spec: the rigid transforms of the scene, kept abstract.
    The visualizer's transform type, its composition [∘] and the transform a
    joint of a given type and axis contributes at a given value are not part
    of the sources at hand; the model is stated over any such structure. *)
Class Transform : Type := {
  T : Type;
  compose : T -> T -> T;
  identity : T;
  joint_transform : forall (revolving sliding : bool) (axis : Q * Q * Q) (value : Q), T
}.

(** Modelled from the spec: "a type (revolute, prismatic, fixed,
    continuous)"; the joint types of the kinematic model, which is not among
    the sources. *)
Inductive joint_type : Type := Revolute | Prismatic | Fixed | Continuous.

(** Modelled from the spec: a joint "has a type, an axis, and, for non-fixed
    types, a scalar value constrained to [lower_limit, upper_limit]
    (continuous joints have no limit)".  The joint record of the kinematic
    model is not among the sources. *)
Record Joint : Type := mkJoint {
  joint_name : string;
  joint_kind : joint_type;
  axis : Q * Q * Q;
  lower_limit : Q;
  upper_limit : Q
}.

(** Modelled from the spec: "a named rigid body with an optional
    visual-geometry reference and a fixed offset transform relative to its
    parent joint.  Links form a tree"; each child hangs from its link by a
    joint.  The link tree of the kinematic model is not among the sources. *)
#[warnings="-register-all"]
Inductive Link `{Transform} : Type :=
| mkLink (link_name : string) (geometry : option string) (offset : T)
         (children : list (Joint * Link)).

(** Modelled from the spec: "the link/joint tree plus a mapping from joint
    name to current value and a derived mapping from link name to its
    current world transform", with the mark that [set_joint_value] leaves on
    the derived transforms.  The model object is not among the sources. *)
Record KinematicModel `{Transform} : Type := mkModel {
  root : Link;
  values : gmap string Q;
  transforms : gmap string T;
  dirty : bool
}.

(** Modelled from the spec: the unrecognized-name failure of the read
    accessors ([UnknownEntityError]), which are not among the sources. *)
Inductive UnknownEntityError : Type := UnknownEntity (name : string).

(** Modelled from the spec: the joints of "the link/joint tree", listed
    top-down; the tree walk is not among the sources. *)
Fixpoint joints_of `{Transform} (l : Link) : list Joint :=
  match l with
  | mkLink _ _ _ children =>
      (fix below (cs : list (Joint * Link)) : list Joint :=
         match cs with
         | [] => []
         | (j, child) :: rest => (j :: joints_of child ++ below rest)%list
         end) children
  end.

(** Modelled from the spec: the joint a name stands for in the model; the
    lookup is not among the sources. *)
Definition find_joint `{Transform} (name : string) (m : KinematicModel) : option Joint :=
  List.find (fun j => String.eqb (joint_name j) name) (joints_of (root m)).

(** Modelled from the spec: "constrained to [lower_limit, upper_limit]
    (continuous joints have no limit)"; a fixed joint has no value and so no
    limit either.  Not among the sources. *)
Definition limits (j : Joint) : option (Q * Q) :=
  match joint_kind j with
  | Revolute | Prismatic => Some (lower_limit j, upper_limit j)
  | Fixed | Continuous => None
  end.

(** Modelled from the spec: strict comparison of joint values, used by the
    clamp of [set_joint_value], which is not among the sources. *)
Definition Qlt_bool (x y : Q) : bool := negb (Qle_bool y x).

(** Modelled from the spec: "clamps to the joint's limits": a value below
    the lower limit becomes the lower limit, one above the upper limit the
    upper limit.  The clamp of [set_joint_value] is not among the sources. *)
Definition clamp (lower upper v : Q) : Q :=
  if Qlt_bool v lower then lower
  else if Qlt_bool upper v then upper
  else v.

(** Modelled from the spec: the value [set_joint_value] stores for a joint;
    not among the sources. *)
Definition clamp_to_limits (j : Joint) (v : Q) : Q :=
  match limits j with
  | Some (lower, upper) => clamp lower upper v
  | None => v
  end.

(** Modelled from the spec: "set_joint_value(name, value): clamps to the
    joint's limits (silently clamps, does not error), marks derived
    transforms dirty".  [None] is the answer for a name the model has no
    joint for.  The function is not among the sources. *)
Definition set_joint_value `{Transform} (name : string) (v : Q) (m : KinematicModel)
  : option KinematicModel :=
  match find_joint name m with
  | None => None
  | Some j =>
      Some {| root := root m;
              values := <[name := clamp_to_limits j v]> (values m);
              transforms := transforms m;
              dirty := true |}
  end.

(** Modelled from the spec: "joint transform(value)" of a joint at its
    current value in the model (zero until one is set); not among the
    sources. *)
Definition joint_motion `{Transform} (vals : gmap string Q) (j : Joint) : T :=
  joint_transform
    (match joint_kind j with Revolute | Continuous => true | _ => false end)
    (match joint_kind j with Prismatic => true | _ => false end)
    (axis j)
    (default 0%Q (vals !! joint_name j)).

(** Modelled from the spec: "a single top-down traversal from the root
    recomputing each link's world transform as ... link transform = parent
    link transform ∘ fixed offset ∘ joint transform(value)"; the result
    lists each link with its world transform, parents before children.  The
    traversal is not among the sources. *)
Fixpoint world_transforms `{Transform} (vals : gmap string Q)
    (parent motion : T) (l : Link) : list (string * T) :=
  match l with
  | mkLink name _ offset children =>
      let world := compose (compose parent offset) motion in
      (name, world) ::
      (fix below (cs : list (Joint * Link)) : list (string * T) :=
         match cs with
         | [] => []
         | (j, child) :: rest =>
             (world_transforms vals world (joint_motion vals j) child
                ++ below rest)%list
         end) children
  end.

(** Modelled from the spec: "writing the transform cache": each computed
    transform replaces the cached one of its link.  Not among the
    sources. *)
Definition write_cache `{Transform} (ws : list (string * T)) (cache : gmap string T)
  : gmap string T :=
  foldl (fun c w => <[fst w := snd w]> c) cache ws.

(** Modelled from the spec: "recompute_transforms(): a single top-down
    traversal from the root recomputing each link's world transform ...
    side-effect-free beyond writing the transform cache"; the pass clears
    the mark left by [set_joint_value].  The function is not among the
    sources. *)
Definition recompute_transforms `{Transform} (m : KinematicModel) : KinematicModel :=
  {| root := root m;
     values := values m;
     transforms :=
       write_cache (world_transforms (values m) identity identity (root m))
         (transforms m);
     dirty := false |}.

(** Modelled from the spec: "joint_value(name) / link_transform(name): read
    accessors; fail with UnknownEntityError for unrecognized names".  The
    accessors are not among the sources. *)
Definition joint_value `{Transform} (name : string) (m : KinematicModel)
  : UnknownEntityError + Q :=
  match find_joint name m with
  | None => inl (UnknownEntity name)
  | Some _ => inr (default 0%Q (values m !! name))
  end.

(** Modelled from the spec: the read accessor [link_transform(name)], which
    fails with [UnknownEntityError] for a name the cache has no link for;
    not among the sources. *)
Definition link_transform `{Transform} (name : string) (m : KinematicModel)
  : UnknownEntityError + T :=
  match transforms m !! name with
  | None => inl (UnknownEntity name)
  | Some t => inr t
  end.

(** Modelled from the spec: a transform structure to run the model on, the
    actual one not being among the sources: a transform is the sequence of
    fixed offsets and joint motions it is composed of. *)
Inductive atom : Type :=
| Offset (link : string)
| Motion (revolving sliding : bool) (axis : Q * Q * Q) (value : Q).

(** Modelled from the spec: composition of transforms, for the symbolic
    structure standing in for the one that is not among the sources. *)
Definition symbolic : Transform :=
  {| T := list atom;
     compose := @app atom;
     identity := [];
     joint_transform := fun revolving sliding axis value =>
                          [Motion revolving sliding axis value] |}.

(** Modelled from the spec: the model of the scenario of section 8, "a
    2-link, 1-revolute-joint model with limit [0, 90] degrees"; the
    description it would be loaded from is not among the sources. *)
Definition joint1 : Joint :=
  {| joint_name := "joint1";
     joint_kind := Revolute;
     axis := (0, 0, 1)%Q;
     lower_limit := 0%Q;
     upper_limit := 90%Q |}.

(** Modelled from the spec: the two links of that scenario, before any
    recompute pass; not among the sources. *)
Definition two_link_arm : @KinematicModel symbolic :=
  {| root := @mkLink symbolic "base" None [Offset "base"]
               [(joint1, @mkLink symbolic "arm" None [Offset "arm"] [])];
     values := ∅;
     transforms := ∅;
     dirty := true |}.

End Kinematics.

(** ** The pose synchronizer *)

Module PoseSynchronizer.
Import Kinematics.

(** Modelled from the spec: "Pose Update: { timestamp, mapping of joint name
    → value }", the entries in the order of the message.  The update
    messages are not among the sources. *)
Record PoseUpdate : Type := mkUpdate {
  timestamp : Z;
  joints : list (string * Q)
}.

(** Modelled from the spec: the synchronizer "maintains the timestamp of the
    last applied update", owns the joint values of the kinematic model,
    buffers updates "in a single latest known slot, not a queue", "exposes a
    stale flag" and logs the unknown joint names it skips.  After a
    reconnect it has no baseline, hence the option.  The synchronizer is not
    among the sources. *)
Record Synchronizer `{Transform} : Type := mkSync {
  model : KinematicModel;
  last_applied : option Z;
  pending : option PoseUpdate;
  stale : bool;
  log : list string
}.

(** Modelled from the spec: "a newly received update whose timestamp is
    older than the last applied one"; with no baseline nothing is older.
    Not among the sources. *)
Definition older_than_last (u : PoseUpdate) (last : option Z) : bool :=
  match last with
  | Some t => timestamp u <? t
  | None => false
  end.

(** Modelled from the spec: "partial updates are valid; unspecified joints
    retain their previous value" and "an update that references an unknown
    joint name is logged and skipped, not fatal": each entry goes through
    [set_joint_value].  Not among the sources. *)
Definition apply_joints `{Transform} (js : list (string * Q))
    (ml : KinematicModel * list string) : KinematicModel * list string :=
  foldl (fun acc nv =>
           match set_joint_value (fst nv) (snd nv) (fst acc) with
           | Some m' => (m', snd acc)
           | None => (fst acc, (snd acc ++ [fst nv])%list)
           end) ml js.

(** Modelled from the spec: "a newly received update whose timestamp is
    older than the last applied one is discarded (out-of-order rejection)
    rather than applied"; an applied update becomes the last applied one.
    The function is not among the sources. *)
Definition apply_update `{Transform} (s : Synchronizer) (u : PoseUpdate) : Synchronizer :=
  if older_than_last u (last_applied s) then s
  else
    let ml := apply_joints (joints u) (model s, log s) in
    {| model := fst ml;
       last_applied := Some (timestamp u);
       pending := pending s;
       stale := stale s;
       log := snd ml |}.

(** Modelled from the spec: a sequence of updates applied one after the
    other, in the order of arrival.  Not among the sources. *)
Definition apply_updates `{Transform} (s : Synchronizer) (us : list PoseUpdate)
  : Synchronizer :=
  foldl apply_update s us.

(** Modelled from the spec: "a newly received update whose timestamp is
    older than the last applied one is discarded"; any other one takes the
    slot: "if multiple updates arrive before the next render frame, only the
    most recent wins".  Not among the sources. *)
Definition receive `{Transform} (s : Synchronizer) (u : PoseUpdate) : Synchronizer :=
  if older_than_last u (last_applied s) then s
  else
    {| model := model s;
       last_applied := last_applied s;
       pending := Some u;
       stale := stale s;
       log := log s |}.

(** Modelled from the spec: at the next render frame the update in the slot,
    if there is one, is applied and the slot is emptied.  Not among the
    sources. *)
Definition flush `{Transform} (s : Synchronizer) : Synchronizer :=
  match pending s with
  | None => s
  | Some u =>
      apply_update
        {| model := model s;
           last_applied := last_applied s;
           pending := None;
           stale := stale s;
           log := log s |} u
  end.

(** Modelled from the spec: what the synchronizer reacts to: an update
    arriving from the transport, and a render frame.  Not among the
    sources. *)
Inductive input : Type :=
| Received (u : PoseUpdate)
| Frame.

(** Modelled from the spec: the synchronizer's reaction to one input; not
    among the sources. *)
Definition react `{Transform} (s : Synchronizer) (i : input) : Synchronizer :=
  match i with
  | Received u => receive s u
  | Frame => flush s
  end.

(** Modelled from the spec: the synchronizer over a sequence of arrivals and
    frames; not among the sources. *)
Definition react_all `{Transform} (s : Synchronizer) (ins : list input) : Synchronizer :=
  foldl react s ins.

(** Modelled from the spec: "on transport disconnect, the Synchronizer
    freezes the last known pose (does not reset to a default) and exposes a
    stale flag".  Not among the sources. *)
Definition freeze `{Transform} (s : Synchronizer) : Synchronizer :=
  {| model := model s;
     last_applied := last_applied s;
     pending := pending s;
     stale := true;
     log := log s |}.

(** Modelled from the spec: on a successful re-handshake the "Pose
    Synchronizer resumes, discarding its last applied timestamp baseline so
    the next update after reconnect is always accepted".  Not among the
    sources. *)
Definition resume `{Transform} (s : Synchronizer) : Synchronizer :=
  {| model := model s;
     last_applied := None;
     pending := pending s;
     stale := false;
     log := log s |}.

(** Modelled from the spec: the order on last-applied timestamps, having no
    baseline being below every timestamp.  Not among the sources. *)
Definition baseline_le (a b : option Z) : Prop :=
  match a, b with
  | None, _ => True
  | Some _, None => False
  | Some x, Some y => x <= y
  end.

(** Modelled from the spec: a synchronizer on the two-link model of the
    scenario of section 8 that has applied nothing yet; not among the
    sources. *)
Definition two_link_sync : @Synchronizer symbolic :=
  {| model := two_link_arm;
     last_applied := None;
     pending := None;
     stale := false;
     log := [] |}.

End PoseSynchronizer.

(** ** The session controller *)

Module SessionController.

(** Modelled from the spec: "State machine with states: Idle → Connecting →
    Active → Reconnecting → Closed"; [Reconnecting] carries the number of
    retry attempts that have failed so far.  The controller is not among the
    sources. *)
Inductive session_state : Type :=
| Idle
| Connecting
| Active
| Reconnecting (failed : nat)
| Closed.

(** Modelled from the spec: what the transitions of section 4.5 fire on.
    Not among the sources. *)
Inductive event : Type :=
| SessionCreated
| HandshakeOk
| TransportFailure
| HeartbeatTimeout
| RetryFailed
| RetryOk
| Teardown.

(** Modelled from the spec: what the controller does on a transition: waits
    a backoff delay before the next retry, reports "a terminal session
    failure" to the UI, releases "transport and any acquired media-device
    handles".  Not among the sources. *)
Inductive action : Type :=
| ScheduleRetry (delay : nat)
| ReportTerminalFailure
| ReleaseResources.

(** Modelled from the spec: the controller: its state and whether the
    transport and media handles have been released ("exactly once
    (idempotent close)").  Not among the sources. *)
Record controller : Type := mkController {
  phase : session_state;
  released : bool
}.

(** Modelled from the spec: "a bounded number of retry attempts ... (fixed
    cap, e.g. 5 attempts)".  Not among the sources. *)
Definition max_retries : nat := 5.

(** Modelled from the spec: "exponential backoff": the delay doubles with
    every failed attempt, counted in units of the first delay.  Not among
    the sources. *)
Definition backoff (failed : nat) : nat := 2 ^ failed.

(** Modelled from the spec: "explicit teardown ... releases transport and
    any acquired media-device handles unconditionally, from any state,
    exactly once (idempotent close)".  Not among the sources. *)
Definition teardown (c : controller) : controller * list action :=
  (mkController Closed true,
   if released c then [] else [ReleaseResources]).

(** Modelled from the spec: the transitions of section 4.5.  An event that
    has no transition in the current state changes nothing; once [Closed],
    only a teardown still does something.  Not among the sources. *)
Definition step (c : controller) (e : event) : controller * list action :=
  match phase c, e with
  | _, Teardown => teardown c
  | Idle, SessionCreated => (mkController Connecting (released c), [])
  | Connecting, HandshakeOk => (mkController Active (released c), [])
  | Active, (TransportFailure | HeartbeatTimeout) =>
      (mkController (Reconnecting 0) (released c), [ScheduleRetry (backoff 0)])
  | Reconnecting _, RetryOk => (mkController Active (released c), [])
  | Reconnecting failed, RetryFailed =>
      if (S failed <? max_retries)%nat
      then (mkController (Reconnecting (S failed)) (released c),
            [ScheduleRetry (backoff (S failed))])
      else (mkController Closed (released c), [ReportTerminalFailure])
  | _, _ => (c, [])
  end.

(** Modelled from the spec: the controller run over a sequence of events,
    collecting what it did.  Not among the sources. *)
Fixpoint run (c : controller) (es : list event) : controller * list action :=
  match es with
  | [] => (c, [])
  | e :: rest =>
      let (c1, out1) := step c e in
      let (c2, out2) := run c1 rest in
      (c2, (out1 ++ out2)%list)
  end.

(** Modelled from the spec: how many times a terminal failure was reported.
    Not among the sources. *)
Definition terminal_reports (out : list action) : nat :=
  length (List.filter
            (fun a => match a with ReportTerminalFailure => true | _ => false end) out).

(** Modelled from the spec: how many retries were scheduled.  Not among the
    sources. *)
Definition retries_scheduled (out : list action) : nat :=
  length (List.filter
            (fun a => match a with ScheduleRetry _ => true | _ => false end) out).

(** Modelled from the spec: a session that has just been created.  Not among
    the sources. *)
Definition fresh : controller := mkController Idle false.

(** Modelled from the spec: how many retry attempts fail in a sequence of
    events.  Not among the sources. *)
Definition failed_retries (es : list event) : nat :=
  length (List.filter (fun e => match e with RetryFailed => true | _ => false end) es).

(** Modelled from the spec: "a bounded number of retry attempts": the
    number of failed attempts a reconnecting session has on record stays
    below the cap.  Not among the sources. *)
Definition within_cap (c : controller) : Prop :=
  match phase c with
  | Reconnecting failed => (failed < max_retries)%nat
  | _ => True
  end.

End SessionController.

(** ** What the landing page renders from its state *)

Module LandingView.
Import Js Browser Handler Landing.

(** [disabled={!robotModel}] of the "Begin Session" and "Teleoperation"
    buttons. *)
Definition sessionButtonsDisabled (s : State) : bool := not_str (robotModel s).

(** [disabled={isLoadingConfigs}] of the "Start Teleoperation" button. *)
Definition startDisabled (s : State) : bool := isLoadingConfigs s.

(** [loadConfigs] up to its first [await]: the flag is raised and the
    request has gone out; this is where a caller that does not await the
    call gets control back. *)
Definition loadConfigsPending : M State unit :=
  exec setIsLoadingConfigs true ;
  emit (EFetch (request_of "http://localhost:8000/get-configs" None)).

(** [handleTeleoperationClick] up to its return: the handler is synchronous
    and calls [loadConfigs()] without awaiting it, so it returns with the
    request pending. *)
Definition handleTeleoperationClickReturn (c : State) : M State unit :=
  if negb (not_str (robotModel c)) then
    exec setShowTeleoperationModal true ;
    loadConfigsPending
  else ret tt.

(** What [navigator.mediaDevices] is in the browser at hand: missing (an
    insecure context, an old browser), or there, with the outcome of the
    request it is asked. *)
Inductive media_devices : Type :=
| NoMediaDevices
| MediaDevices (w : media_outcome).

(** [await navigator.mediaDevices.getUserMedia({ video, audio })], the
    reading of [navigator.mediaDevices] included: without media devices the
    property access throws before anything is asked of the browser. *)
Definition getUserMediaOf {S} (video audio : bool) (env : media_devices)
  : M S (list nat) :=
  match env with
  | NoMediaDevices =>
      throw (TypeError "Cannot read properties of undefined (reading 'getUserMedia')")
  | MediaDevices w => getUserMedia video audio w
  end.

(** [handlePermissions] in any browser.  [Landing.handlePermissions] is this
    handler where [navigator.mediaDevices] is there. *)
Definition handlePermissionsIn (allow : bool) (env : media_devices) : M State unit :=
  exec setShowPermissionModal false ;
  if allow then
    try_catch
      (do stream <- getUserMediaOf true true env ;
       exec forEach stream (fun track => stop track) ;
       exec toast permissionsGranted ;
       navigate "/control")
      (fun _ => toast permissionRequired)
  else
    exec toast permissionDeclined ;
    navigate "/control".

(** [configs.map((config) => <SelectItem value={config} ... />)]: the values
    the [Select] offers.  Only an array has [map]; on anything else the
    render throws. *)
Definition selectItems (configs : value) (what : string) : error + list value :=
  match configs with
  | VArr xs => inr xs
  | VUndefined =>
      inl (TypeError "Cannot read properties of undefined (reading 'map')")
  | VNull =>
      inl (TypeError "Cannot read properties of null (reading 'map')")
  | _ => inl (TypeError (what ++ ".map is not a function"))
  end.

(** The two option lists of the configuration dialog, or the error its
    render throws. *)
Definition dialogOptions (s : State) : error + list value * list value :=
  match selectItems (leaderConfigs s) "leaderConfigs" with
  | inl e => inl e
  | inr leader =>
      match selectItems (followerConfigs s) "followerConfigs" with
      | inl e => inl e
      | inr follower => inr (leader, follower)
      end
  end.

(** A render in which the operator has picked a robot and a leader config
    but no follower config yet. *)
Definition halfConfiguredState : State :=
  {| robotModel := "SO101";
     showPermissionModal := false;
     showTeleoperationModal := false;
     leaderPort := "/dev/tty.usbmodem5A460816421";
     followerPort := "/dev/tty.usbmodem5A460816621";
     leaderConfig := "so101_leader";
     followerConfig := "";
     leaderConfigs := VArr [];
     followerConfigs := VArr [];
     isLoadingConfigs := false |}.

Definition is_array (v : value) : bool :=
  match v with VArr _ => true | _ => false end.

(** A run of [handleStartTeleoperation] treats the response as a success
    when it closes the configuration dialog and navigates to the
    teleoperation view. *)
Definition treated_as_success (r : (error + unit) * store State) : Prop :=
  showTeleoperationModal (final r) = false ∧ ENavigate "/teleoperation" ∈ effects r.

(** An array, or a value that [|| []] replaces by the empty array. *)
Definition array_or_falsy (v : value) : bool := is_array v || negb (truthy v).

End LandingView.

(** ** The routes of the application ([App]) and the teleoperation page *)

Module App.
Import Js Browser Handler.

(** The [element] of a [Route]. *)
Inductive element : Type := Landing | Index | TeleoperationPage | NotFound.

(** The [Routes] table, in the order of the source. *)
Definition routes : list (string * element) :=
  [("/", Landing);
   ("/control", Index);
   ("/teleoperation", TeleoperationPage);
   ("*", NotFound)].

(** The element of the route whose [path] is literally the given location,
    the catch-all apart.  Which route the router picks for any other
    location is the router's business and not modelled. *)
Fixpoint declared (table : list (string * element)) (location : string) : option element :=
  match table with
  | [] => None
  | (path, el) :: rest =>
      if String.eqb path "*" then declared rest location
      else if String.eqb path location then Some el
      else declared rest location
  end.

Definition element_at (location : string) : option element := declared routes location.

End App.

Module Teleoperation.
Import Js Browser Handler.

(** [handleGoBack] of [TeleoperationPage], handed to the visualizer panel as
    [onGoBack]; the page has no state of its own. *)
Definition handleGoBack : M unit unit := navigate "/".

End Teleoperation.

(** ** Observations on runs *)

Module Observe.
Import Js Browser Handler.

Definition is_toast (e : effect) : bool :=
  match e with EToast _ => true | _ => false end.

(** The request resolved and its body parsed to something properties can be
    read from. *)
Definition readable (w : fetch_outcome) : bool :=
  match w with
  | FetchResponse _ (inr (VNull | VUndefined)) => false
  | FetchResponse _ (inr _) => true
  | _ => false
  end.

(** The error a handler's [catch] receives when the answer is not
    readable for the property named. *)
Definition failure (w : fetch_outcome) (k : string) : option error :=
  match w with
  | FetchRejected e => Some e
  | FetchResponse _ (inl e) => Some e
  | FetchResponse _ (inr data) =>
      match get_prop data k with inl e => Some e | inr _ => None end
  end.

Definition connectionError : toast_args :=
  {| title := "Connection Error";
     description := VStr "Could not connect to the backend server.";
     toast_variant := Destructive |}.

Definition errorLoadingConfigs : toast_args :=
  {| title := "Error Loading Configs";
     description := VStr "Could not load calibration configs from the backend.";
     toast_variant := Destructive |}.

(** The static page after a failed load: what is left in the two [select]
    elements, and the error written in [#response]. *)
Definition loadFailure (leader follower : list value) (e : error) : StaticPage.Page :=
  StaticPage.mkPage leader follower
    (VStr ("Error loading configs: " ++ error_message e)).

End Observe.

(** * Properties of the landing page and the static page *)

Module LandingFacts.
Import Js Browser Handler Landing.

(** Case analysis on what the awaited request and its body turn out to be. *)
Ltac by_outcome w :=
  destruct w as [? | ? [? | [ | | ? | ? | ? | ? | ? ]]].

Lemma forEach_stop (S : Type) (tracks : list nat) (σ : store S) :
  forEach tracks (fun track => stop track) σ =
  (inr tt,
   Store (state σ) (list_to_set tracks ∪ stopped σ)
         (trace σ ++ map EStopTrack tracks)).
Proof.
  revert σ. induction tracks as [| t rest IH]; intros [s st tr].
  - cbn. rewrite app_nil_r. by rewrite (left_id_L ∅ (∪)).
  - cbn [forEach]. unfold bind at 1. cbn [stop state stopped trace].
    rewrite IH. cbn [state stopped trace map list_to_set].
    rewrite <- app_assoc. cbn [app].
    rewrite (comm_L (∪) {[t]} (list_to_set rest)).
    by rewrite (assoc_L (∪)).
Qed.

(** Sample runs. *)

Example loadConfigs_stores_lists :
  run initialState
    (loadConfigs
       (FetchResponse true
          (inr (VObj [("leader_configs", VArr [VStr "so100_leader"]);
                      ("follower_configs", VArr [VStr "so100_follower"])]))))
  = (inr tt,
     Store (mkState "" false false "/dev/tty.usbmodem5A460816421"
              "/dev/tty.usbmodem5A460816621" "" ""
              (VArr [VStr "so100_leader"]) (VArr [VStr "so100_follower"]) false)
       ∅
       [EFetch (Request "http://localhost:8000/get-configs" "GET" [] None)]).
Proof. reflexivity. Qed.

Example loadConfigs_on_null_body :
  effects (run initialState (loadConfigs (FetchResponse true (inr VNull))))
  = [EFetch (Request "http://localhost:8000/get-configs" "GET" [] None);
     EToast (Toast "Error Loading Configs"
               (VStr "Could not load calibration configs from the backend.")
               Destructive)].
Proof. reflexivity. Qed.

Example start_with_unparsable_body :
  effects
    (run configuredState
       (handleStartTeleoperation configuredState
          (FetchResponse true (inl (SyntaxError "Unexpected token <")))))
  = [EFetch (moveArmRequest configuredState);
     EToast (Toast "Connection Error"
               (VStr "Could not connect to the backend server.") Destructive)].
Proof. reflexivity. Qed.

Example permissions_granted_run :
  run initialState (handlePermissions true (MediaStream [7%nat; 8%nat]))
  = (inr tt,
     Store initialState ({[7%nat]} ∪ ({[8%nat]} ∪ ∅))
       [EGetUserMedia true true; EStopTrack 7; EStopTrack 8;
        EToast permissionsGranted; ENavigate "/control"]).
Proof. reflexivity. Qed.

Example onload_on_missing_lists :
  final (run StaticPage.initialPage
           (StaticPage.onload (FetchResponse true (inr (VObj [("detail", VStr "down")])))))
  = StaticPage.mkPage [] []
      (VStr "Error loading configs: Cannot read properties of undefined (reading 'forEach')").
Proof. reflexivity. Qed.

(** C10.  [loadConfigs] never throws and leaves [isLoadingConfigs] false on
    every exit path: whether the request is rejected, the body does not
    parse, or a body of any shape arrives.  A body that is an object lacking
    [leader_configs] (or [follower_configs]) makes the handler store the
    empty list for it; when the request or the parsing of its body fails,
    both stored lists are what they were. *)
Theorem loadConfigs_resets_flag (s : State) (w : fetch_outcome) :
  let r := run s (loadConfigs w) in
  completed r = true
  ∧ isLoadingConfigs (final r) = false
  ∧ (∀ ok fields, w = FetchResponse ok (inr (VObj fields)) →
       (own_prop fields "leader_configs" = VUndefined →
        leaderConfigs (final r) = VArr [])
       ∧ (own_prop fields "follower_configs" = VUndefined →
          followerConfigs (final r) = VArr []))
  ∧ ((∃ e, w = FetchRejected e) ∨ (∃ ok e, w = FetchResponse ok (inl e)) →
       leaderConfigs (final r) = leaderConfigs s
       ∧ followerConfigs (final r) = followerConfigs s).
Proof.
  intros r. subst r. split; [| split; [| split]].
  - by_outcome w; reflexivity.
  - by_outcome w; reflexivity.
  - intros ok fields ->. split; intros Hlack; cbn; unfold logical_or; by rewrite Hlack.
  - intros [[e ->] | (ok & e & ->)]; split; reflexivity.
Qed.

Lemma loadConfigs_resets_flag_witness :
  (leaderConfigs
     (final (run initialState
               (loadConfigs (FetchResponse true (inr (VObj [("detail", VStr "down")]))))))
   = VArr []
   ∧ followerConfigs
       (final (run initialState
                 (loadConfigs (FetchResponse true (inr (VObj [("detail", VStr "down")]))))))
     = VArr [])
  ∧ leaderConfigs
      (final (run initialState (loadConfigs (FetchRejected (TypeError "Failed to fetch")))))
    = leaderConfigs initialState
  ∧ followerConfigs
      (final (run initialState (loadConfigs (FetchRejected (TypeError "Failed to fetch")))))
    = followerConfigs initialState.
Proof.
  split.
  - destruct (loadConfigs_resets_flag initialState
                (FetchResponse true (inr (VObj [("detail", VStr "down")]))))
      as (_ & _ & Hlack & _).
    destruct (Hlack true [("detail", VStr "down")] eq_refl) as [Hl Hf].
    split; [apply Hl | apply Hf]; reflexivity.
  - destruct (loadConfigs_resets_flag initialState
                (FetchRejected (TypeError "Failed to fetch")))
      as (_ & _ & _ & Hfail).
    apply Hfail. left. eexists. reflexivity.
Defined.

Lemma forEach_appendLeaderOption (xs : list value) (σ : store StaticPage.Page) :
  forEach xs (fun config => StaticPage.appendLeaderOption config) σ =
  (inr tt,
   Store (StaticPage.mkPage (StaticPage.leaderOptions (state σ) ++ xs)
            (StaticPage.followerOptions (state σ)) (StaticPage.response (state σ)))
         (stopped σ) (trace σ)).
Proof.
  revert σ. induction xs as [| x rest IH]; intros [[l f r] st tr].
  - cbn. by rewrite app_nil_r.
  - cbn [forEach]. unfold bind at 1. cbn -[forEach]. rewrite IH. cbn.
    by rewrite <- app_assoc.
Qed.

Lemma forEach_appendFollowerOption (xs : list value) (σ : store StaticPage.Page) :
  forEach xs (fun config => StaticPage.appendFollowerOption config) σ =
  (inr tt,
   Store (StaticPage.mkPage (StaticPage.leaderOptions (state σ))
            (StaticPage.followerOptions (state σ) ++ xs) (StaticPage.response (state σ)))
         (stopped σ) (trace σ)).
Proof.
  revert σ. induction xs as [| x rest IH]; intros [[l f r] st tr].
  - cbn. by rewrite app_nil_r.
  - cbn [forEach]. unfold bind at 1. cbn -[forEach]. rewrite IH. cbn.
    by rewrite <- app_assoc.
Qed.

Lemma silent_ret (S A : Type) (a : A) : silent (S := S) (ret a).
Proof. by intros σ. Qed.

Lemma silent_lift (S A : Type) (r : error + A) : silent (S := S) (lift r).
Proof. by destruct r; intros σ. Qed.

Lemma silent_modify (S : Type) (f : S → S) : silent (modify f).
Proof. by intros σ. Qed.

Lemma silent_bind (S A B : Type) (c : M S A) (k : A → M S B) :
  silent c → (∀ a, silent (k a)) → silent (bind c k).
Proof.
  intros Hc Hk σ. unfold bind. destruct (Hc σ) as [Ht Hs].
  destruct (c σ) as [[e | a] σ']; cbn in *; [done |].
  destruct (Hk a σ') as [Ht' Hs']. by rewrite Ht', Hs'.
Qed.

Lemma silent_try_catch (S A : Type) (c : M S A) (h : error → M S A) :
  silent c → (∀ e, silent (h e)) → silent (try_catch c h).
Proof.
  intros Hc Hh σ. unfold try_catch. destruct (Hc σ) as [Ht Hs].
  destruct (c σ) as [[e | a] σ']; cbn in *; [| done].
  destruct (Hh e σ') as [Ht' Hs']. by rewrite Ht', Hs'.
Qed.

Lemma silent_forEach (S A : Type) (xs : list A) (f : A → M S unit) :
  (∀ x, silent (f x)) → silent (forEach xs f).
Proof.
  intros Hf. induction xs as [| x rest IH]; cbn [forEach].
  - apply silent_ret.
  - apply silent_bind; [apply Hf | intros _; apply IH].
Qed.

(** A guarded request: either the handler takes over with the rejection, or
    the guarded continuation runs on the response. *)
Lemma try_catch_fetch (S A : Type) (u : string)
    (init : option (string * list (string * string) * value)) (w : fetch_outcome)
    (k : bool * (error + value) → M S A) (h : error → M S A) (σ : store S) :
  try_catch (bind (fetch u init w) k) h σ =
  match w with
  | FetchRejected e => h e (sent (request_of u init) σ)
  | FetchResponse ok j => try_catch (k (ok, j)) h (sent (request_of u init) σ)
  end.
Proof. by destruct w. Qed.

(** The page script's [onload] sends one request whatever comes back. *)
Lemma onload_effects (p : StaticPage.Page) (w : fetch_outcome) :
  effects (run p (StaticPage.onload w)) = [EFetch StaticPage.getConfigsRequest].
Proof.
  unfold StaticPage.onload, run, effects. rewrite try_catch_fetch.
  destruct w as [e | ok j]; [reflexivity |].
  match goal with |- trace (snd (?c ?σ)) = _ => assert (Hs : silent c) end.
  { apply silent_try_catch; [| intros e; apply silent_modify].
    repeat first
      [ apply silent_modify | apply silent_lift
      | apply silent_forEach; intros ?
      | apply silent_bind; [| intros ?] ]. }
  by rewrite (proj1 (Hs _)).
Qed.

(** [onload] offers exactly the identifiers of a well-formed answer. *)
Lemma onload_options (p : StaticPage.Page) (ok : bool) (data : value)
    (L F : list value) :
  get_prop data "leader_configs" = inr (VArr L) →
  get_prop data "follower_configs" = inr (VArr F) →
  final (run p (StaticPage.onload (FetchResponse ok (inr data)))) =
  StaticPage.mkPage L F (StaticPage.response p).
Proof.
  intros HL HF.
  unfold StaticPage.onload, run, final. rewrite try_catch_fetch.
  unfold try_catch, json, prop. cbn [snd lift]. unfold bind at 1. cbn [ret].
  unfold bind at 1. cbn [StaticPage.setLeaderOptions modify].
  unfold bind at 1. cbn [StaticPage.setFollowerOptions modify].
  unfold bind at 1. rewrite HL. cbn [lift ret].
  unfold bind at 1. cbn [forEach_items lift ret].
  unfold bind at 1. rewrite forEach_appendLeaderOption.
  unfold bind at 1. rewrite HF. cbn [lift ret].
  unfold bind at 1. cbn [forEach_items lift ret].
  rewrite forEach_appendFollowerOption. reflexivity.
Qed.

(** C4.  Loading the configurations only reads from the backend: the one
    request [loadConfigs] sends is a GET without body to [/get-configs], it
    performs no navigation and touches no media track, and of the
    component's state only the two lists (and the loading flag) can differ
    afterwards; the lists a well-formed answer carries are stored as they
    are.  The script of the static page does the same with its two
    [select] elements. *)
Theorem loadConfigs_read_only (s : State) (w : fetch_outcome) :
  List.filter is_fetch (effects (run s (loadConfigs w))) =
    [EFetch (Request "http://localhost:8000/get-configs" "GET" [] None)]
  ∧ (∀ e, e ∈ effects (run s (loadConfigs w)) → is_fetch e = true ∨ ∃ t, e = EToast t)
  ∧ ended (run s (loadConfigs w)) = ∅
  ∧ (∃ lc fc b,
       final (run s (loadConfigs w)) =
       mkState (robotModel s) (showPermissionModal s) (showTeleoperationModal s)
         (leaderPort s) (followerPort s) (leaderConfig s) (followerConfig s)
         lc fc b)
  ∧ (∀ ok data L F,
       w = FetchResponse ok (inr data) →
       get_prop data "leader_configs" = inr (VArr L) →
       get_prop data "follower_configs" = inr (VArr F) →
       leaderConfigs (final (run s (loadConfigs w))) = VArr L
       ∧ followerConfigs (final (run s (loadConfigs w))) = VArr F)
  ∧ (∀ p, effects (run p (StaticPage.onload w)) =
            [EFetch (Request "/get-configs" "GET" [] None)])
  ∧ (∀ p ok data L F,
       w = FetchResponse ok (inr data) →
       get_prop data "leader_configs" = inr (VArr L) →
       get_prop data "follower_configs" = inr (VArr F) →
       final (run p (StaticPage.onload w)) =
       StaticPage.mkPage L F (StaticPage.response p)).
Proof.
  split; [| split; [| split; [| split; [| split; [| split]]]]].
  - by_outcome w; reflexivity.
  - intros e He.
    by_outcome w; cbn in He;
      repeat (apply elem_of_cons in He as [-> | He]; [eauto |]);
      by apply elem_of_nil in He.
  - by_outcome w; reflexivity.
  - by_outcome w; cbn; eauto.
  - intros ok data L F -> HL HF.
    destruct data; cbn in HL, HF; try discriminate.
    injection HL as HL. injection HF as HF. cbn. by rewrite HL, HF.
  - intros p. apply onload_effects.
  - intros p ok data L F -> HL HF. by apply onload_options.
Qed.

Lemma loadConfigs_read_only_witness :
  (leaderConfigs
     (final (run initialState
        (loadConfigs
           (FetchResponse true
              (inr (VObj [("leader_configs", VArr [VStr "so100_leader"]);
                          ("follower_configs", VArr [VStr "so100_follower"])]))))))
   = VArr [VStr "so100_leader"]
   ∧ followerConfigs
       (final (run initialState
          (loadConfigs
             (FetchResponse true
                (inr (VObj [("leader_configs", VArr [VStr "so100_leader"]);
                            ("follower_configs", VArr [VStr "so100_follower"])]))))))
     = VArr [VStr "so100_follower"])
  ∧ final (run StaticPage.initialPage
      (StaticPage.onload
         (FetchResponse true
            (inr (VObj [("leader_configs", VArr [VStr "so100_leader"]);
                        ("follower_configs", VArr [VStr "so100_follower"])])))))
    = StaticPage.mkPage [VStr "so100_leader"] [VStr "so100_follower"] (VStr "").
Proof.
  destruct (loadConfigs_read_only initialState
              (FetchResponse true
                 (inr (VObj [("leader_configs", VArr [VStr "so100_leader"]);
                             ("follower_configs", VArr [VStr "so100_follower"])]))))
    as (_ & _ & _ & _ & Hstore & _ & Hpage).
  split.
  - apply (Hstore true _ _ _ eq_refl); reflexivity.
  - apply (Hpage StaticPage.initialPage true _ _ _ eq_refl); reflexivity.
Defined.

Lemma not_str_true (x : string) : not_str x = true ↔ x = "".
Proof. unfold not_str. apply String.eqb_eq. Qed.

Lemma not_str_false (x : string) : not_str x = false ↔ x ≠ "".
Proof. unfold not_str. apply String.eqb_neq. Qed.

Lemma unselected (a b : string) :
  a = "" ∨ b = "" → not_str a || not_str b = true.
Proof.
  intros [-> | ->]; [reflexivity |]. apply orb_true_iff. right. reflexivity.
Qed.

Lemma selected (a b : string) :
  not_str a || not_str b = false → a ≠ "" ∧ b ≠ "".
Proof.
  intros H. apply orb_false_iff in H as [Ha Hb].
  split; by apply not_str_false.
Qed.

(** C2.  With the leader or the follower calibration config unselected,
    [handleStartTeleoperation] shows the "Missing Configuration" toast and
    returns: that toast is its only effect and the state is untouched.  A
    request appears among its effects only when both configs are selected.
    [moveArm] of the static page behaves the same way, writing its message
    in [#response]. *)
Theorem missing_config_sends_nothing (c : State) (f : StaticPage.Form)
    (p : StaticPage.Page) (w : fetch_outcome) :
  (leaderConfig c = "" ∨ followerConfig c = "" →
     run c (handleStartTeleoperation c w) =
     (inr tt, Store c ∅ [EToast missingConfiguration]))
  ∧ (∀ r, EFetch r ∈ effects (run c (handleStartTeleoperation c w)) →
       leaderConfig c ≠ "" ∧ followerConfig c ≠ "")
  ∧ (StaticPage.leaderConfig f = "" ∨ StaticPage.followerConfig f = "" →
       run p (StaticPage.moveArm f w) =
       (inr tt,
        Store (StaticPage.mkPage (StaticPage.leaderOptions p)
                 (StaticPage.followerOptions p)
                 (VStr "Please select calibration configs for both leader and follower"))
              ∅ []))
  ∧ (∀ r, EFetch r ∈ effects (run p (StaticPage.moveArm f w)) →
       StaticPage.leaderConfig f ≠ "" ∧ StaticPage.followerConfig f ≠ "").
Proof.
  split; [| split; [| split]].
  - intros H. unfold handleStartTeleoperation. by rewrite (unselected _ _ H).
  - intros r. unfold handleStartTeleoperation.
    destruct (not_str (leaderConfig c) || not_str (followerConfig c)) eqn:E.
    + cbn. intros Hin. apply elem_of_cons in Hin as [Hin | Hin]; [discriminate |].
      by apply elem_of_nil in Hin.
    + intros _. by apply selected.
  - intros H. unfold StaticPage.moveArm. by rewrite (unselected _ _ H).
  - intros r. unfold StaticPage.moveArm.
    destruct (not_str (StaticPage.leaderConfig f)
              || not_str (StaticPage.followerConfig f)) eqn:E.
    + cbn. intros Hin. by apply elem_of_nil in Hin.
    + intros _. by apply selected.
Qed.

Lemma missing_config_sends_nothing_witness :
  run initialState
    (handleStartTeleoperation initialState
       (FetchResponse true (inr (VObj [("message", VStr "started")]))))
  = (inr tt, Store initialState ∅ [EToast missingConfiguration])
  ∧ run StaticPage.initialPage
      (StaticPage.moveArm (StaticPage.mkForm "/dev/ttyACM1" "/dev/ttyACM0" "so100" "")
         (FetchResponse true (inr (VObj [("message", VStr "started")]))))
    = (inr tt,
       Store (StaticPage.mkPage [VStr ""] [VStr ""]
                (VStr "Please select calibration configs for both leader and follower"))
             ∅ []).
Proof.
  destruct (missing_config_sends_nothing initialState
              (StaticPage.mkForm "/dev/ttyACM1" "/dev/ttyACM0" "so100" "")
              StaticPage.initialPage
              (FetchResponse true (inr (VObj [("message", VStr "started")]))))
    as (Hreact & _ & Hpage & _).
  split.
  - apply Hreact. left. reflexivity.
  - apply Hpage. right. reflexivity.
Defined.

Lemma logical_or_truthy (v d : value) : truthy v = true → logical_or v d = v.
Proof. unfold logical_or. by intros ->. Qed.

(** C3, as stated, fails: an ok response is not always treated as a
    success.  When the body of an ok response is not JSON, the handler shows
    the "Connection Error" toast, leaves the configuration dialog open and
    does not navigate. *)
Lemma ok_response_without_json_is_no_success :
  Handler.ok (true, @inl error value (SyntaxError "Unexpected token <")) = true
  ∧ leaderConfig configuredState ≠ "" ∧ followerConfig configuredState ≠ ""
  ∧ ¬ LandingView.treated_as_success
        (run configuredState
           (handleStartTeleoperation configuredState
              (FetchResponse true (inl (SyntaxError "Unexpected token <")))))
  ∧ run configuredState
      (handleStartTeleoperation configuredState
         (FetchResponse true (inl (SyntaxError "Unexpected token <"))))
    = (inr tt,
       Store configuredState ∅
         [EFetch (moveArmRequest configuredState);
          EToast (Toast "Connection Error"
                    (VStr "Could not connect to the backend server.") Destructive)]).
Proof.
  split; [reflexivity |]. split; [discriminate |]. split; [discriminate |].
  split; [| reflexivity].
  intros [Hclosed _]. discriminate Hclosed.
Qed.

(** C3, amended.  With both configs selected, the one request of
    [handleStartTeleoperation] is a POST to [/move-arm] whose JSON body holds
    exactly [leader_port], [follower_port], [leader_config] and
    [follower_config].  When the response carries a JSON body a message can
    be read from, the handler shows that message (a stock text when it is
    empty or absent): for an ok response in the "Teleoperation Started"
    toast, after which it closes the configuration dialog and navigates to
    [/teleoperation]; for any other response in the destructive "Error
    Starting Teleoperation" toast, with no navigation and the dialog left as
    it is.  When the body cannot be read (it is not JSON, or it is [null])
    or the request is rejected, the handler shows the "Connection Error"
    toast whatever the status, an ok response included, and changes
    nothing.  [moveArm] of the static page posts the same four parameters
    and writes the message in [#response]. *)
Theorem begin_session_call (c : State) (f : StaticPage.Form)
    (p : StaticPage.Page) (w : fetch_outcome) :
  leaderConfig c ≠ "" → followerConfig c ≠ "" →
  StaticPage.leaderConfig f ≠ "" → StaticPage.followerConfig f ≠ "" →
  List.filter is_fetch (effects (run c (handleStartTeleoperation c w))) =
    [EFetch (Request "http://localhost:8000/move-arm" "POST"
               [("Content-Type", "application/json")]
               (Some (VObj [("leader_port", VStr (leaderPort c));
                            ("follower_port", VStr (followerPort c));
                            ("leader_config", VStr (leaderConfig c));
                            ("follower_config", VStr (followerConfig c))])))]
  ∧ (∀ data message,
       w = FetchResponse true (inr data) →
       get_prop data "message" = inr message →
       effects (run c (handleStartTeleoperation c w)) =
         [EFetch (moveArmRequest c);
          EToast (Toast "Teleoperation Started"
                    (logical_or message (VStr "Successfully started teleoperation session."))
                    Default);
          ENavigate "/teleoperation"]
       ∧ showTeleoperationModal (final (run c (handleStartTeleoperation c w))) = false
       ∧ (truthy message = true →
          logical_or message (VStr "Successfully started teleoperation session.") = message))
  ∧ (∀ data message,
       w = FetchResponse false (inr data) →
       get_prop data "message" = inr message →
       effects (run c (handleStartTeleoperation c w)) =
         [EFetch (moveArmRequest c);
          EToast (Toast "Error Starting Teleoperation"
                    (logical_or message (VStr "Failed to start teleoperation session."))
                    Destructive)]
       ∧ final (run c (handleStartTeleoperation c w)) = c
       ∧ (truthy message = true →
          logical_or message (VStr "Failed to start teleoperation session.") = message))
  ∧ effects (run p (StaticPage.moveArm f w)) =
      [EFetch (Request "/move-arm" "POST" [("Content-Type", "application/json")]
                 (Some (VObj [("leader_port", VStr (StaticPage.leaderPort f));
                              ("follower_port", VStr (StaticPage.followerPort f));
                              ("leader_config", VStr (StaticPage.leaderConfig f));
                              ("follower_config", VStr (StaticPage.followerConfig f))])))]
  ∧ (∀ ok data message,
       w = FetchResponse ok (inr data) →
       get_prop data "message" = inr message →
       StaticPage.response (final (run p (StaticPage.moveArm f w))) = message)
  ∧ ((∀ ok data message,
        w = FetchResponse ok (inr data) → get_prop data "message" ≠ inr message) →
       run c (handleStartTeleoperation c w) =
       (inr tt,
        Store c ∅
          [EFetch (moveArmRequest c);
           EToast (Toast "Connection Error"
                     (VStr "Could not connect to the backend server.") Destructive)])
       ∧ ¬ LandingView.treated_as_success (run c (handleStartTeleoperation c w))).
Proof.
  intros Hl Hf Hl' Hf'.
  apply not_str_false in Hl, Hf, Hl', Hf'.
  unfold handleStartTeleoperation, StaticPage.moveArm.
  rewrite Hl, Hf, Hl', Hf'. cbn [orb].
  split; [| split; [| split; [| split; [| split]]]].
  - destruct w as [e | [|] [e | [ | | ? | ? | ? | ? | ? ]]]; reflexivity.
  - intros data message -> Hm.
    destruct data; cbn in Hm; try discriminate; injection Hm as <-;
      (split; [reflexivity | split; [reflexivity | apply logical_or_truthy]]).
  - intros data message -> Hm.
    destruct data; cbn in Hm; try discriminate; injection Hm as <-;
      (split; [reflexivity | split; [by destruct c | apply logical_or_truthy]]).
  - by_outcome w; reflexivity.
  - intros ok data message -> Hm.
    destruct data; cbn in Hm; try discriminate; injection Hm as <-; reflexivity.
  - intros Hunreadable.
    destruct w as [e | [|] [e | [ | | ? | ? | ? | ? | ? ]]];
      try (exfalso; eapply (Hunreadable _ _ _ eq_refl); reflexivity);
      (split; [reflexivity |]);
      intros [_ Hnav]; cbn in Hnav;
      repeat (apply elem_of_cons in Hnav as [Hnav | Hnav]; [discriminate |]);
      by apply elem_of_nil in Hnav.
Qed.

Lemma begin_session_call_witness :
  (effects
     (run configuredState
        (handleStartTeleoperation configuredState
           (FetchResponse true (inr (VObj [("message", VStr "Teleoperation started")])))))
   = [EFetch (moveArmRequest configuredState);
      EToast (Toast "Teleoperation Started"
                (logical_or (VStr "Teleoperation started")
                   (VStr "Successfully started teleoperation session."))
                Default);
      ENavigate "/teleoperation"])
  ∧ (effects
       (run configuredState
          (handleStartTeleoperation configuredState
             (FetchResponse false (inr (VObj [("message", VStr "Port is busy")])))))
     = [EFetch (moveArmRequest configuredState);
        EToast (Toast "Error Starting Teleoperation"
                  (logical_or (VStr "Port is busy")
                     (VStr "Failed to start teleoperation session."))
                  Destructive)])
  ∧ StaticPage.response
      (final
         (run StaticPage.initialPage
            (StaticPage.moveArm StaticPage.configuredForm
               (FetchResponse true (inr (VObj [("message", VStr "Teleoperation started")]))))))
    = VStr "Teleoperation started"
  ∧ ¬ LandingView.treated_as_success
        (run configuredState
           (handleStartTeleoperation configuredState (FetchResponse true (inr VNull)))).
Proof.
  destruct (begin_session_call configuredState StaticPage.configuredForm
              StaticPage.initialPage
              (FetchResponse true (inr (VObj [("message", VStr "Teleoperation started")]))))
    as (_ & Hok & _ & _ & Hpage & _); try discriminate.
  destruct (begin_session_call configuredState StaticPage.configuredForm
              StaticPage.initialPage
              (FetchResponse false (inr (VObj [("message", VStr "Port is busy")]))))
    as (_ & _ & Hfail & _); try discriminate.
  destruct (begin_session_call configuredState StaticPage.configuredForm
              StaticPage.initialPage (FetchResponse true (inr VNull)))
    as (_ & _ & _ & _ & _ & Hnull); try discriminate.
  split; [| split; [| split]].
  - apply (Hok _ _ eq_refl). reflexivity.
  - apply (Hfail _ _ eq_refl). reflexivity.
  - apply (Hpage true _ _ eq_refl). reflexivity.
  - apply Hnull. intros ok data message Hw. injection Hw as _ <-. discriminate.
Defined.

(** C1, as stated, fails: when the operator allows access and the browser
    rejects the request, access has not been granted and yet the handler
    does not go on to the control session. *)
Lemma rejected_request_does_not_proceed :
  access_not_granted true
    (MediaRejected (DOMException "NotAllowedError" "Permission denied"))
  ∧ ¬ proceeds_to_control
        (run initialState
           (handlePermissions true
              (MediaRejected (DOMException "NotAllowedError" "Permission denied")))).
Proof.
  split.
  - right. eexists. reflexivity.
  - unfold proceeds_to_control. cbn. intros Hin.
    repeat (apply elem_of_cons in Hin as [Hin | Hin]; [discriminate |]).
    by apply elem_of_nil in Hin.
Qed.

(** C1, amended.  When the operator declines access, the handler asks for
    no device, tells the operator that functionality is limited and goes on
    to the control session.  When the operator allows access and the
    browser rejects the request, the handler tells the operator that access
    is required and does not navigate.  Either way the permission dialog is
    closed and nothing else of the state changes. *)
Theorem declining_proceeds_rejection_blocks (s : State) (w : media_outcome) (e : error) :
  (effects (run s (handlePermissions false w)) =
     [EToast permissionDeclined; ENavigate "/control"]
   ∧ proceeds_to_control (run s (handlePermissions false w)))
  ∧ (effects (run s (handlePermissions true (MediaRejected e))) =
       [EGetUserMedia true true; EToast permissionRequired]
     ∧ ¬ proceeds_to_control (run s (handlePermissions true (MediaRejected e))))
  ∧ final (run s (handlePermissions false w)) =
      final (run s (setShowPermissionModal false))
  ∧ final (run s (handlePermissions true (MediaRejected e))) =
      final (run s (setShowPermissionModal false)).
Proof.
  split; [split | split; [split | split]]; try reflexivity.
  - unfold proceeds_to_control. cbn. apply elem_of_cons. right.
    apply elem_of_cons. by left.
  - unfold proceeds_to_control. cbn. intros Hin.
    repeat (apply elem_of_cons in Hin as [Hin | Hin]; [discriminate |]).
    by apply elem_of_nil in Hin.
Qed.

(** C9.  When [getUserMedia] resolves to a stream, the handler stops each of
    its tracks right after the acquisition and before the toast and the
    navigation to [/control]; it then completes without throwing, and every
    track of the stream is among the stopped ones. *)
Theorem acquired_tracks_are_stopped (s : State) (tracks : list nat) :
  effects (run s (handlePermissions true (MediaStream tracks))) =
    ([EGetUserMedia true true] ++ map EStopTrack tracks
       ++ [EToast permissionsGranted; ENavigate "/control"])%list
  ∧ completed (run s (handlePermissions true (MediaStream tracks))) = true
  ∧ ended (run s (handlePermissions true (MediaStream tracks))) = list_to_set tracks
  ∧ (∀ t, t ∈ tracks →
       t ∈ ended (run s (handlePermissions true (MediaStream tracks)))).
Proof.
  assert (Hrun :
    run s (handlePermissions true (MediaStream tracks)) =
    (inr tt,
     Store (final (run s (setShowPermissionModal false)))
       (list_to_set tracks ∪ ∅)
       ((([EGetUserMedia true true] ++ map EStopTrack tracks)
           ++ [EToast permissionsGranted]) ++ [ENavigate "/control"])%list)).
  { unfold handlePermissions, run, try_catch, getUserMedia, bind.
    cbn -[forEach]. rewrite forEach_stop. cbn.
    reflexivity. }
  rewrite Hrun. unfold effects, completed, ended. cbn [fst snd trace stopped].
  rewrite (right_id_L ∅ (∪)).
  split; [by rewrite <- app_assoc | split; [done | split; [done |]]].
  intros t Ht. by apply elem_of_list_to_set.
Qed.

Lemma acquired_tracks_are_stopped_witness :
  1%nat ∈ ended (run initialState (handlePermissions true (MediaStream [0%nat; 1%nat]))).
Proof.
  destruct (acquired_tracks_are_stopped initialState [0%nat; 1%nat])
    as (_ & _ & _ & Hall).
  apply Hall. apply elem_of_cons. right. apply elem_of_cons. by left.
Defined.

End LandingFacts.

(** * Properties of the kinematic model *)

Module KinematicsFacts.
Import Kinematics.

Lemma Qlt_bool_iff (x y : Q) : Qlt_bool x y = true ↔ (x < y)%Q.
Proof.
  unfold Qlt_bool. rewrite negb_true_iff, <- not_true_iff_false, Qle_bool_iff.
  split; [apply Qnot_le_lt | apply Qlt_not_le].
Qed.

Lemma Qlt_bool_false (x y : Q) : (y <= x)%Q → Qlt_bool x y = false.
Proof.
  intros Hle. apply not_true_iff_false. rewrite Qlt_bool_iff.
  by apply Qle_not_lt.
Qed.

Lemma clamp_below (lower upper v : Q) : (v < lower)%Q → clamp lower upper v = lower.
Proof. intros Hlt. unfold clamp. by rewrite (proj2 (Qlt_bool_iff _ _) Hlt). Qed.

Lemma clamp_above (lower upper v : Q) :
  (lower <= upper)%Q → (upper < v)%Q → clamp lower upper v = upper.
Proof.
  intros Hle Hlt. unfold clamp.
  rewrite Qlt_bool_false by (apply Qlt_le_weak; eapply Qle_lt_trans; eauto).
  by rewrite (proj2 (Qlt_bool_iff _ _) Hlt).
Qed.

Lemma clamp_within (lower upper v : Q) :
  (lower <= upper)%Q →
  (lower <= clamp lower upper v)%Q ∧ (clamp lower upper v <= upper)%Q.
Proof.
  intros Hle. unfold clamp.
  destruct (Qlt_bool v lower) eqn:E1; [split; [apply Qle_refl | done] |].
  destruct (Qlt_bool upper v) eqn:E2; [split; [done | apply Qle_refl] |].
  apply not_true_iff_false in E1, E2. rewrite Qlt_bool_iff in E1, E2.
  split; by apply Qnot_lt_le.
Qed.

(** C5.  For a joint of the model that has limits [lower ≤ upper] and an
    input outside them, [set_joint_value] does not fail: it yields a model
    in which the joint's value is the lower limit when the input was below
    it and the upper limit when it was above, which is never the input, and
    in which the derived transforms are marked dirty. *)
Theorem set_joint_value_clamps `{Transform} (m : KinematicModel) (name : string)
    (j : Joint) (v : Q) :
  find_joint name m = Some j →
  joint_kind j = Revolute ∨ joint_kind j = Prismatic →
  (lower_limit j <= upper_limit j)%Q →
  (v < lower_limit j)%Q ∨ (upper_limit j < v)%Q →
  ∃ m' stored,
    set_joint_value name v m = Some m'
    ∧ values m' !! name = Some stored
    ∧ joint_value name m' = inr stored
    ∧ ((v < lower_limit j)%Q → stored = lower_limit j)
    ∧ ((upper_limit j < v)%Q → stored = upper_limit j)
    ∧ ¬ (stored == v)%Q
    ∧ dirty m' = true.
Proof.
  intros Hfind Hkind Hle Hout.
  assert (Hlim : limits j = Some (lower_limit j, upper_limit j)).
  { unfold limits. by destruct Hkind as [-> | ->]. }
  unfold set_joint_value. rewrite Hfind.
  eexists _, (clamp (lower_limit j) (upper_limit j) v).
  split; [reflexivity |]. cbn [values dirty].
  unfold clamp_to_limits. rewrite Hlim.
  split; [apply lookup_insert_eq |].
  split.
  { unfold joint_value, find_joint in *. cbn [root values]. rewrite Hfind.
    by rewrite lookup_insert_eq. }
  split; [apply clamp_below |].
  split; [by apply clamp_above |].
  split; [| reflexivity].
  destruct Hout as [Hlt | Hgt].
  - rewrite clamp_below by done. intros Heq. rewrite Heq in Hlt.
    by apply Qlt_irrefl in Hlt.
  - rewrite clamp_above by done. intros Heq. rewrite Heq in Hgt.
    by apply Qlt_irrefl in Hgt.
Qed.

Lemma set_joint_value_clamps_witness :
  ∃ m' stored,
    @set_joint_value symbolic "joint1" 120%Q two_link_arm = Some m'
    ∧ values m' !! "joint1" = Some stored
    ∧ joint_value "joint1" m' = inr stored
    ∧ ((120 < 0)%Q → stored = 0%Q)
    ∧ ((90 < 120)%Q → stored = 90%Q)
    ∧ ¬ (stored == 120)%Q
    ∧ dirty m' = true.
Proof.
  apply (@set_joint_value_clamps symbolic two_link_arm "joint1" joint1 120%Q).
  - reflexivity.
  - left. reflexivity.
  - discriminate.
  - right. reflexivity.
Defined.

(** The scenario of section 8 of the specification, on the two-link arm. *)

Example scenario_clamped :
  (m ← @set_joint_value symbolic "joint1" 120%Q two_link_arm; values m !! "joint1")
  = Some 90%Q.
Proof. by vm_compute. Qed.

Example scenario_in_range :
  (m ← @set_joint_value symbolic "joint1" 120%Q two_link_arm;
   m' ← set_joint_value "joint1" 45%Q m;
   Some (link_transform "arm" (recompute_transforms m'),
         link_transform "base" (recompute_transforms m'),
         dirty m', dirty (recompute_transforms m')))
  = Some (inr [Offset "base"; Offset "arm"; Motion true false (0, 0, 1)%Q 45%Q],
          inr [Offset "base"],
          true, false).
Proof. by vm_compute. Qed.

Example scenario_unknown_joint :
  @set_joint_value symbolic "joint9" 10%Q two_link_arm = None
  ∧ joint_value "joint9" two_link_arm = inl (UnknownEntity "joint9").
Proof. by vm_compute. Qed.

Section Cache.
Context `{Transform}.

Lemma write_cache_snoc (ws : list (string * T)) (w : string * T) (cache : gmap string T) :
  write_cache (ws ++ [w]) cache = <[fst w := snd w]> (write_cache ws cache).
Proof. unfold write_cache. by rewrite foldl_app. Qed.

(** A link the pass does not visit keeps its cached transform. *)
Lemma write_cache_untouched (ws : list (string * T)) (cache : gmap string T) (k : string) :
  k ∉ ws.*1 → write_cache ws cache !! k = cache !! k.
Proof.
  induction ws as [| w ws IH] using rev_ind; [done |].
  rewrite fmap_app, write_cache_snoc. cbn. intros Hk.
  apply not_elem_of_app in Hk as [Hws Hw].
  rewrite lookup_insert_ne; [by apply IH |].
  intros Heq. apply Hw. apply elem_of_cons. by left.
Qed.

(** The transform written for a visited link does not depend on what the
    cache held before. *)
Lemma write_cache_visited (ws : list (string * T)) (c1 c2 : gmap string T) (k : string) :
  k ∈ ws.*1 → write_cache ws c1 !! k = write_cache ws c2 !! k.
Proof.
  induction ws as [| w ws IH] using rev_ind.
  - intros Hk. by apply elem_of_nil in Hk.
  - rewrite fmap_app, !write_cache_snoc. cbn. intros Hk.
    destruct (decide (fst w = k)) as [<- | Hne].
    + by rewrite !lookup_insert_eq.
    + rewrite !lookup_insert_ne by done. apply IH.
      apply elem_of_app in Hk as [Hk | Hk]; [done |].
      apply elem_of_cons in Hk as [Hk | Hk]; [congruence |].
      by apply elem_of_nil in Hk.
Qed.

Lemma write_cache_idempotent (ws : list (string * T)) (cache : gmap string T) :
  write_cache ws (write_cache ws cache) = write_cache ws cache.
Proof.
  apply map_eq. intros k.
  destruct (decide (k ∈ ws.*1)) as [Hin | Hout].
  - by apply write_cache_visited.
  - by rewrite write_cache_untouched.
Qed.

(** C8.  A second [recompute_transforms] with no [set_joint_value] in
    between changes nothing: the model after two passes is the model after
    one, so every link reads the same transform both times; and a pass
    leaves the link tree and the joint values as they were, writing only
    the transform cache (and clearing its dirty mark). *)
Theorem recompute_transforms_idempotent (m : KinematicModel) :
  recompute_transforms (recompute_transforms m) = recompute_transforms m
  ∧ (∀ name, link_transform name (recompute_transforms (recompute_transforms m))
             = link_transform name (recompute_transforms m))
  ∧ root (recompute_transforms m) = root m
  ∧ values (recompute_transforms m) = values m
  ∧ (∀ name, joint_value name (recompute_transforms m) = joint_value name m).
Proof.
  assert (Hidem : recompute_transforms (recompute_transforms m) = recompute_transforms m).
  { unfold recompute_transforms. cbn [root values transforms].
    by rewrite write_cache_idempotent. }
  split; [exact Hidem |].
  split; [intros name; by rewrite Hidem |].
  repeat split.
Qed.

End Cache.

End KinematicsFacts.

(** * Properties of the pose synchronizer *)

Module PoseSynchronizerFacts.
Import Kinematics PoseSynchronizer.

Section Ordering.
Context `{Transform}.

Lemma baseline_le_refl (a : option Z) : baseline_le a a.
Proof. destruct a; cbn; [lia | done]. Qed.

Lemma baseline_le_trans (a b c : option Z) :
  baseline_le a b → baseline_le b c → baseline_le a c.
Proof. destruct a, b, c; cbn; try done; lia. Qed.

(** A discarded update leaves the synchronizer as it is. *)
Lemma apply_update_older (s : Synchronizer) (u : PoseUpdate) (t : Z) :
  last_applied s = Some t → timestamp u < t → apply_update s u = s.
Proof.
  intros Hlast Hlt. unfold apply_update, older_than_last. rewrite Hlast.
  by rewrite (proj2 (Z.ltb_lt _ _) Hlt).
Qed.

Lemma receive_older (s : Synchronizer) (u : PoseUpdate) (t : Z) :
  last_applied s = Some t → timestamp u < t → receive s u = s.
Proof.
  intros Hlast Hlt. unfold receive, older_than_last. rewrite Hlast.
  by rewrite (proj2 (Z.ltb_lt _ _) Hlt).
Qed.

(** An update that is not older than the baseline is applied and becomes
    the baseline. *)
Lemma apply_update_fresh (s : Synchronizer) (u : PoseUpdate) :
  older_than_last u (last_applied s) = false →
  apply_update s u =
  {| model := fst (apply_joints (joints u) (model s, log s));
     last_applied := Some (timestamp u);
     pending := pending s;
     stale := stale s;
     log := snd (apply_joints (joints u) (model s, log s)) |}.
Proof. intros Hfresh. unfold apply_update. by rewrite Hfresh. Qed.

Lemma apply_update_baseline (s : Synchronizer) (u : PoseUpdate) :
  baseline_le (last_applied s) (last_applied (apply_update s u)).
Proof.
  unfold apply_update, older_than_last.
  destruct (last_applied s) as [t |] eqn:Hlast; [| done].
  destruct (timestamp u <? t) eqn:Hcmp.
  - rewrite Hlast. apply baseline_le_refl.
  - cbn. by apply Z.ltb_ge.
Qed.

(** Once an update has been offered, the baseline is at least its
    timestamp. *)
Lemma apply_update_reaches (s : Synchronizer) (u : PoseUpdate) :
  baseline_le (Some (timestamp u)) (last_applied (apply_update s u)).
Proof.
  unfold apply_update, older_than_last.
  destruct (last_applied s) as [t |] eqn:Hlast; [| cbn; lia].
  destruct (timestamp u <? t) eqn:Hcmp.
  - rewrite Hlast. cbn. apply Z.ltb_lt in Hcmp. lia.
  - cbn. lia.
Qed.

Lemma apply_updates_baseline (us : list PoseUpdate) (s : Synchronizer) :
  baseline_le (last_applied s) (last_applied (apply_updates s us)).
Proof.
  revert s. induction us as [| u us IH]; intros s.
  - apply baseline_le_refl.
  - cbn. eapply baseline_le_trans; [apply apply_update_baseline | apply IH].
Qed.

Lemma apply_update_then_older (s : Synchronizer) (u1 u2 : PoseUpdate) :
  timestamp u2 < timestamp u1 →
  apply_update (apply_update s u1) u2 = apply_update s u1.
Proof.
  intros Hlt. pose proof (apply_update_reaches s u1) as Hreach.
  destruct (last_applied (apply_update s u1)) as [t |] eqn:Hlast; [| done].
  cbn in Hreach. apply (apply_update_older _ _ t); [done | lia].
Qed.

(** Receiving only fills the slot. *)
Lemma receive_last_applied (s : Synchronizer) (u : PoseUpdate) :
  last_applied (receive s u) = last_applied s.
Proof. unfold receive. by destruct (older_than_last u (last_applied s)). Qed.

Lemma flush_baseline (s : Synchronizer) :
  baseline_le (last_applied s) (last_applied (flush s)).
Proof.
  unfold flush. destruct (pending s) as [u |]; [| apply baseline_le_refl].
  match goal with |- context [apply_update ?s0 u] =>
    apply (apply_update_baseline s0 u) end.
Qed.

(** A frame leaves the slot empty. *)
Lemma flush_pending (s : Synchronizer) : pending (flush s) = None.
Proof.
  unfold flush. destruct (pending s) as [u |] eqn:Hp; [| done].
  unfold apply_update. by destruct (older_than_last u _).
Qed.

Lemma flush_empty (s : Synchronizer) : pending s = None → flush s = s.
Proof. intros Hp. unfold flush. by rewrite Hp. Qed.

Lemma react_baseline (s : Synchronizer) (i : input) :
  baseline_le (last_applied s) (last_applied (react s i)).
Proof.
  destruct i as [u |]; cbn.
  - rewrite receive_last_applied. apply baseline_le_refl.
  - apply flush_baseline.
Qed.

Lemma react_all_baseline (ins : list input) (s : Synchronizer) :
  baseline_le (last_applied s) (last_applied (react_all s ins)).
Proof.
  revert s. induction ins as [| i ins IH]; intros s.
  - apply baseline_le_refl.
  - cbn. eapply baseline_le_trans; [apply react_baseline | apply IH].
Qed.

(** After an arrival and a frame the baseline is at least the timestamp of
    what arrived, whether it was applied or discarded. *)
Lemma received_then_frame_reaches (s : Synchronizer) (u : PoseUpdate) :
  baseline_le (Some (timestamp u)) (last_applied (flush (receive s u))).
Proof.
  unfold receive. destruct (older_than_last u (last_applied s)) eqn:Hold.
  - eapply baseline_le_trans; [| apply flush_baseline].
    unfold older_than_last in Hold. destruct (last_applied s) as [t |]; [| done].
    cbn. apply Z.ltb_lt in Hold. lia.
  - unfold flush. cbn [pending model last_applied stale log].
    apply apply_update_reaches.
Qed.

Lemma received_then_frame_fresh (s : Synchronizer) (u : PoseUpdate) :
  older_than_last u (last_applied s) = false →
  flush (receive s u) =
  {| model := fst (apply_joints (joints u) (model s, log s));
     last_applied := Some (timestamp u);
     pending := None;
     stale := stale s;
     log := snd (apply_joints (joints u) (model s, log s)) |}.
Proof.
  intros Hfresh. unfold receive. rewrite Hfresh. unfold flush.
  cbn [pending model last_applied stale log].
  by rewrite apply_update_fresh.
Qed.

Lemma stale_arrival_changes_nothing (s : Synchronizer) (u1 u2 : PoseUpdate) :
  timestamp u2 < timestamp u1 →
  react_all s [Received u1; Frame; Received u2; Frame] =
  react_all s [Received u1; Frame].
Proof.
  intros Hlt. cbn.
  pose proof (received_then_frame_reaches s u1) as Hreach.
  pose proof (flush_pending (receive s u1)) as Hempty.
  destruct (last_applied (flush (receive s u1))) as [t |] eqn:Hlast; [| done].
  cbn in Hreach.
  rewrite (receive_older _ u2 t) by (done || lia).
  by apply flush_empty.
Qed.

(** C6.  An update older than the last applied one is discarded on arrival
    and never applied: the synchronizer, and with it every joint value,
    stays as it was.  So after U1 (t=5) has arrived and been applied at a
    frame, U2 (t=3) changes nothing, and when U1 was not itself out of date
    the joint values are those U1 set and the last applied timestamp is 5.
    Over any sequence of arrivals and frames the last applied timestamp
    never decreases, at any point of the sequence. *)
Theorem stale_updates_are_discarded (s : Synchronizer) :
  (∀ u t, last_applied s = Some t → timestamp u < t →
     receive s u = s ∧ apply_update s u = s)
  ∧ (∀ u1 u2, timestamp u1 = 5 → timestamp u2 = 3 →
       apply_updates s [u1; u2] = apply_update s u1
       ∧ react_all s [Received u1; Frame; Received u2; Frame] =
         react_all s [Received u1; Frame]
       ∧ (older_than_last u1 (last_applied s) = false →
          model (react_all s [Received u1; Frame; Received u2; Frame]) =
            fst (apply_joints (joints u1) (model s, log s))
          ∧ last_applied (react_all s [Received u1; Frame; Received u2; Frame])
            = Some 5))
  ∧ (∀ ins ins',
       baseline_le (last_applied (react_all s ins))
                   (last_applied (react_all s (ins ++ ins'))))
  ∧ (∀ us us',
       baseline_le (last_applied (apply_updates s us))
                   (last_applied (apply_updates s (us ++ us')))).
Proof.
  split; [| split; [| split]].
  - intros u t Hlast Hlt. split.
    + by apply (receive_older _ _ t).
    + by apply (apply_update_older _ _ t).
  - intros u1 u2 H1 H2.
    assert (Hlt : timestamp u2 < timestamp u1) by lia.
    split; [cbn; by apply apply_update_then_older |].
    split; [by apply stale_arrival_changes_nothing |].
    intros Hfresh. rewrite (stale_arrival_changes_nothing _ _ _ Hlt). cbn.
    rewrite (received_then_frame_fresh _ _ Hfresh). cbn. by rewrite H1.
  - intros ins ins'. unfold react_all. rewrite foldl_app.
    apply react_all_baseline.
  - intros us us'. unfold apply_updates. rewrite foldl_app.
    apply apply_updates_baseline.
Qed.

End Ordering.

Lemma stale_updates_are_discarded_witness :
  joint_value "joint1"
    (model (react_all two_link_sync
              [Received (mkUpdate 5 [("joint1", 45%Q)]); Frame;
               Received (mkUpdate 3 [("joint1", 10%Q)]); Frame]))
  = inr 45%Q
  ∧ last_applied
      (react_all two_link_sync
         [Received (mkUpdate 5 [("joint1", 45%Q)]); Frame;
          Received (mkUpdate 3 [("joint1", 10%Q)]); Frame])
    = Some 5.
Proof.
  destruct (@stale_updates_are_discarded symbolic two_link_sync) as (_ & Hpair & _).
  destruct (Hpair (mkUpdate 5 [("joint1", 45%Q)]) (mkUpdate 3 [("joint1", 10%Q)])
              eq_refl eq_refl) as (_ & _ & Hfresh).
  destruct (Hfresh eq_refl) as [Hmodel Hlast].
  split; [| exact Hlast].
  rewrite Hmodel. vm_compute. reflexivity.
Defined.

End PoseSynchronizerFacts.

(** * Properties of the session controller *)

Module SessionControllerFacts.
Import SessionController.

(** What one step can report and schedule. *)
Lemma step_reports (c : controller) (e : event) :
  (terminal_reports (snd (step c e)) = 0
   ∨ (terminal_reports (snd (step c e)) = 1 ∧ phase (fst (step c e)) = Closed))%nat.
Proof.
  unfold step, teardown.
  destruct c as [[| | | failed |] r], e; cbn -[Nat.ltb max_retries];
    try destruct r; try destruct (S failed <? max_retries)%nat; cbn; auto.
Qed.

Lemma step_closed (c : controller) (e : event) :
  phase c = Closed →
  phase (fst (step c e)) = Closed
  ∧ terminal_reports (snd (step c e)) = 0%nat
  ∧ retries_scheduled (snd (step c e)) = 0%nat.
Proof.
  destruct c as [p r]. cbn. intros ->.
  destruct e; cbn; auto; destruct r; cbn; auto.
Qed.

Lemma reports_app (out1 out2 : list action) :
  terminal_reports (out1 ++ out2) = (terminal_reports out1 + terminal_reports out2)%nat.
Proof. unfold terminal_reports. by rewrite List.filter_app, length_app. Qed.

Lemma retries_app (out1 out2 : list action) :
  retries_scheduled (out1 ++ out2) = (retries_scheduled out1 + retries_scheduled out2)%nat.
Proof. unfold retries_scheduled. by rewrite List.filter_app, length_app. Qed.

Lemma run_cons (c : controller) (e : event) (es : list event) :
  run c (e :: es) =
  (fst (run (fst (step c e)) es), (snd (step c e) ++ snd (run (fst (step c e)) es))%list).
Proof. cbn. destruct (step c e) as [c1 out1]. cbn. by destruct (run c1 es). Qed.

(** [Closed] is final: nothing is reported or retried from there. *)
Lemma run_closed (es : list event) (c : controller) :
  phase c = Closed →
  phase (fst (run c es)) = Closed
  ∧ terminal_reports (snd (run c es)) = 0%nat
  ∧ retries_scheduled (snd (run c es)) = 0%nat.
Proof.
  revert c. induction es as [| e es IH]; intros c Hc; [by cbn |].
  rewrite run_cons. cbn [fst snd].
  destruct (step_closed c e Hc) as (Hp & Hr & Hs).
  destruct (IH _ Hp) as (Hp' & Hr' & Hs').
  by rewrite reports_app, retries_app, Hr, Hs, Hr', Hs'.
Qed.

Lemma run_reports_once (es : list event) (c : controller) :
  (terminal_reports (snd (run c es)) ≤ 1)%nat.
Proof.
  revert c. induction es as [| e es IH]; intros c; [cbn; lia |].
  rewrite run_cons. cbn [snd]. rewrite reports_app.
  destruct (step_reports c e) as [-> | [-> Hclosed]].
  - apply IH.
  - destruct (run_closed es _ Hclosed) as (_ & -> & _). lia.
Qed.

Lemma step_within_cap (c : controller) (e : event) :
  within_cap c → within_cap (fst (step c e)).
Proof.
  unfold within_cap, step, teardown.
  destruct c as [[| | | failed |] r], e; cbn -[Nat.ltb max_retries];
    try done; try (unfold max_retries; lia).
  destruct (S failed <? max_retries)%nat eqn:E; cbn -[Nat.ltb max_retries]; [| done].
  intros _. by apply Nat.ltb_lt.
Qed.

Lemma run_within_cap (es : list event) (c : controller) :
  within_cap c → within_cap (fst (run c es)).
Proof.
  revert c. induction es as [| e es IH]; intros c Hc; [done |].
  rewrite run_cons. cbn [fst]. apply IH. by apply step_within_cap.
Qed.

(** A reconnecting session that is not re-established: whatever else
    happens in between, each failed attempt counts, no more retries are
    scheduled than the cap leaves room for, and the session is either
    closed or still reconnecting with every failure on record. *)
Lemma reconnecting_run (es : list event) (failed : nat) (r : bool) :
  (failed < max_retries)%nat → RetryOk ∉ es →
  (retries_scheduled (snd (run (mkController (Reconnecting failed) r) es)) + failed
   < max_retries)%nat
  ∧ (phase (fst (run (mkController (Reconnecting failed) r) es)) = Closed
     ∨ (phase (fst (run (mkController (Reconnecting failed) r) es))
        = Reconnecting (failed + failed_retries es)
        ∧ (failed + failed_retries es < max_retries)%nat))
  ∧ (Teardown ∉ es → (max_retries ≤ failed + failed_retries es)%nat →
       terminal_reports (snd (run (mkController (Reconnecting failed) r) es)) = 1%nat
       ∧ (retries_scheduled (snd (run (mkController (Reconnecting failed) r) es))
          + failed + 1 = max_retries)%nat).
Proof.
  revert failed r. induction es as [| e es IH]; intros failed r Hlt Hok.
  { cbn. rewrite Nat.add_0_r. split; [lia |]. split; [by right |]. lia. }
  assert (Hok' : RetryOk ∉ es) by (intros Hin; apply Hok; by apply elem_of_cons; right).
  assert (Hne : e ≠ RetryOk) by (intros ->; apply Hok; by apply elem_of_cons; left).
  assert (Hidle :
    step (mkController (Reconnecting failed) r) e = (mkController (Reconnecting failed) r, []) →
    failed_retries (e :: es) = failed_retries es →
    (retries_scheduled (snd (run (mkController (Reconnecting failed) r) (e :: es))) + failed
     < max_retries)%nat
    ∧ (phase (fst (run (mkController (Reconnecting failed) r) (e :: es))) = Closed
       ∨ (phase (fst (run (mkController (Reconnecting failed) r) (e :: es)))
          = Reconnecting (failed + failed_retries (e :: es))
          ∧ (failed + failed_retries (e :: es) < max_retries)%nat))
    ∧ (Teardown ∉ e :: es → (max_retries ≤ failed + failed_retries (e :: es))%nat →
         terminal_reports (snd (run (mkController (Reconnecting failed) r) (e :: es))) = 1%nat
         ∧ (retries_scheduled (snd (run (mkController (Reconnecting failed) r) (e :: es)))
            + failed + 1 = max_retries)%nat)).
  { intros Hstep Hcount. rewrite run_cons, Hstep, Hcount. cbn [fst snd app].
    destruct (IH failed r Hlt Hok') as (Hs & Hp & Hr).
    split; [exact Hs |]. split; [exact Hp |].
    intros Htd. apply Hr. intros Hin. apply Htd. by apply elem_of_cons; right. }
  destruct e; try (apply Hidle; reflexivity); [| |].
  - (* a retry fails *)
    rewrite run_cons. unfold step. cbn [phase released].
    change (failed_retries (RetryFailed :: es)) with (S (failed_retries es)).
    destruct (S failed <? max_retries)%nat eqn:Hcap.
    + apply Nat.ltb_lt in Hcap. cbn [fst snd]. rewrite retries_app, reports_app.
      destruct (IH (S failed) r Hcap Hok') as (Hs & Hp & Hr).
      change (retries_scheduled [ScheduleRetry (backoff (S failed))]) with 1%nat.
      change (terminal_reports [ScheduleRetry (backoff (S failed))]) with 0%nat.
      replace (failed + S (failed_retries es))%nat
        with (S failed + failed_retries es)%nat by lia.
      split; [lia |]. split; [exact Hp |].
      intros Htd Hge.
      destruct Hr as [Hone Hall];
        [intros Hin; apply Htd; by apply elem_of_cons; right | lia |].
      split; lia.
    + apply Nat.ltb_ge in Hcap. cbn [fst snd].
      destruct (run_closed es (mkController Closed r) eq_refl) as (Hp & Hr & Hs).
      rewrite retries_app, reports_app, Hr, Hs.
      change (retries_scheduled [ReportTerminalFailure]) with 0%nat.
      change (terminal_reports [ReportTerminalFailure]) with 1%nat.
      split; [lia |]. split; [by left |]. intros _ _. split; lia.
  - (* re-established: excluded *)
    by destruct Hne.
  - (* torn down *)
    rewrite run_cons. unfold step, teardown. cbn [phase released fst snd].
    destruct (run_closed es (mkController Closed true) eq_refl) as (Hp & Hr & Hs).
    rewrite retries_app, Hs.
    split; [by destruct r; cbn; lia |]. split; [by left |].
    intros Htd. destruct Htd. by apply elem_of_cons; left.
Qed.

(** C7.  A session that loses its heartbeat while [Active] and then fails
    five retries in a row is [Closed], having waited 1, 2, 4, 8 and 16
    units before its five attempts and having reported the terminal failure
    once.  More generally a reconnecting session with [failed] attempts on
    record is closed by the failures that bring the count to the cap, with
    one report, and this whatever other events come in between, as long as
    no retry succeeds: further transport failures or heartbeat timeouts do
    not reset the count, and the retries scheduled never exceed what the cap
    leaves room for.  No run of the controller reports a terminal failure
    more than once; once [Closed] it schedules no retry and reports nothing;
    and the count of failed attempts of a reconnecting session always stays
    below the cap of 5. *)
Theorem retries_are_capped :
  run fresh ([SessionCreated; HandshakeOk; HeartbeatTimeout] ++ repeat RetryFailed 5) =
    (mkController Closed false,
     [ScheduleRetry 1; ScheduleRetry 2; ScheduleRetry 4; ScheduleRetry 8;
      ScheduleRetry 16; ReportTerminalFailure])
  ∧ (∀ failed r,
       (failed < max_retries)%nat →
       phase (fst (run (mkController (Reconnecting failed) r)
                     (repeat RetryFailed (max_retries - failed)))) = Closed
       ∧ terminal_reports
           (snd (run (mkController (Reconnecting failed) r)
                   (repeat RetryFailed (max_retries - failed)))) = 1%nat)
  ∧ (∀ c es, (terminal_reports (snd (run c es)) ≤ 1)%nat)
  ∧ (∀ c es,
       phase c = Closed →
       phase (fst (run c es)) = Closed
       ∧ terminal_reports (snd (run c es)) = 0%nat
       ∧ retries_scheduled (snd (run c es)) = 0%nat)
  ∧ (∀ es failed,
       phase (fst (run fresh es)) = Reconnecting failed → (failed < max_retries)%nat)
  ∧ (∀ es failed r,
       (failed < max_retries)%nat → RetryOk ∉ es →
       (max_retries ≤ failed + failed_retries es)%nat →
       phase (fst (run (mkController (Reconnecting failed) r) es)) = Closed)
  ∧ (∀ es failed r,
       (failed < max_retries)%nat → RetryOk ∉ es → Teardown ∉ es →
       (max_retries ≤ failed + failed_retries es)%nat →
       terminal_reports (snd (run (mkController (Reconnecting failed) r) es)) = 1%nat
       ∧ (retries_scheduled (snd (run (mkController (Reconnecting failed) r) es))
          + failed + 1 = max_retries)%nat)
  ∧ (∀ es failed r,
       (failed < max_retries)%nat → RetryOk ∉ es →
       (retries_scheduled (snd (run (mkController (Reconnecting failed) r) es)) + failed
        < max_retries)%nat).
Proof.
  split; [reflexivity |].
  split.
  { intros failed r Hlt. unfold max_retries in *.
    destruct failed as [| [| [| [| [| failed]]]]]; try lia; by vm_compute. }
  split; [intros c es; apply run_reports_once |].
  split; [intros c es; apply run_closed |].
  split.
  { intros es failed Hphase.
    pose proof (run_within_cap es fresh I) as Hcap.
    unfold within_cap in Hcap. by rewrite Hphase in Hcap. }
  split.
  { intros es failed r Hlt Hok Hge.
    destruct (reconnecting_run es failed r Hlt Hok) as (_ & [Hclosed | [_ Hbelow]] & _);
      [done | lia]. }
  split.
  { intros es failed r Hlt Hok Htd Hge.
    destruct (reconnecting_run es failed r Hlt Hok) as (_ & _ & Hone). by apply Hone. }
  intros es failed r Hlt Hok.
  by destruct (reconnecting_run es failed r Hlt Hok) as (Hs & _).
Qed.

Lemma retries_are_capped_witness :
  (phase (fst (run (mkController (Reconnecting 3) false)
                 (repeat RetryFailed (max_retries - 3)))) = Closed
   ∧ terminal_reports
       (snd (run (mkController (Reconnecting 3) false)
               (repeat RetryFailed (max_retries - 3)))) = 1%nat)
  ∧ retries_scheduled
      (snd (run (mkController Closed false) [RetryFailed; HeartbeatTimeout; RetryFailed]))
    = 0%nat
  ∧ phase (fst (run (mkController (Reconnecting 0) false)
                  [RetryFailed; HeartbeatTimeout; RetryFailed; TransportFailure;
                   RetryFailed; RetryFailed; HeartbeatTimeout; RetryFailed]))
    = Closed
  ∧ terminal_reports
      (snd (run (mkController (Reconnecting 0) false)
              [RetryFailed; HeartbeatTimeout; RetryFailed; TransportFailure;
               RetryFailed; RetryFailed; HeartbeatTimeout; RetryFailed]))
    = 1%nat.
Proof.
  destruct retries_are_capped as (_ & Hcap & _ & Hclosed & _ & Hany & Honce & _).
  assert (Hok : RetryOk ∉ [RetryFailed; HeartbeatTimeout; RetryFailed; TransportFailure;
                           RetryFailed; RetryFailed; HeartbeatTimeout; RetryFailed]).
  { intros Hin. repeat (apply elem_of_cons in Hin as [Hin | Hin]; [discriminate |]).
    by apply elem_of_nil in Hin. }
  assert (Htd : Teardown ∉ [RetryFailed; HeartbeatTimeout; RetryFailed; TransportFailure;
                            RetryFailed; RetryFailed; HeartbeatTimeout; RetryFailed]).
  { intros Hin. repeat (apply elem_of_cons in Hin as [Hin | Hin]; [discriminate |]).
    by apply elem_of_nil in Hin. }
  split; [| split; [| split]].
  - apply Hcap. unfold max_retries. lia.
  - apply (Hclosed (mkController Closed false)). reflexivity.
  - apply Hany; [unfold max_retries; lia | exact Hok | cbn; unfold max_retries; lia].
  - apply Honce; [unfold max_retries; lia | exact Hok | exact Htd
                 | cbn; unfold max_retries; lia].
Defined.

End SessionControllerFacts.

(** * Further properties of the pages *)

Module PageFacts.
Import Js Browser Handler Landing LandingView Observe.
Import LandingFacts.

Ltac by_answer w :=
  destruct w as [? | [|] [? | [ | | ? | ? | ? | ? | ? ]]].

Ltac no_member H :=
  repeat (apply elem_of_cons in H as [H | H]; [try discriminate |]);
  try (by apply elem_of_nil in H).

(** ** Starting teleoperation *)

(** X1.  When both configs are selected and the answer cannot be read (the
    request is rejected, the body does not parse, or it parses to [null]),
    the handler catches the error: its whole run is the request followed by
    the "Connection Error" toast, with the state untouched, whatever the
    status of the response. *)
Theorem start_unreadable_answer (c : State) (w : fetch_outcome) :
  leaderConfig c ≠ "" → followerConfig c ≠ "" →
  readable w = false →
  run c (handleStartTeleoperation c w) =
  (inr tt, Store c ∅ [EFetch (moveArmRequest c); EToast connectionError]).
Proof.
  intros Hl Hf Hw. apply not_str_false in Hl, Hf.
  unfold handleStartTeleoperation. rewrite Hl, Hf. cbn [orb].
  by_answer w; try discriminate; reflexivity.
Qed.

Lemma start_unreadable_answer_witness :
  run configuredState
    (handleStartTeleoperation configuredState (FetchResponse true (inr VNull)))
  = (inr tt,
     Store configuredState ∅
       [EFetch (moveArmRequest configuredState); EToast connectionError]).
Proof.
  apply start_unreadable_answer; [discriminate | discriminate | reflexivity].
Defined.


(** X3.  Whatever the selection and the answer, the handler returns without
    throwing, has sent at most one request and has shown exactly one
    toast. *)
Theorem start_always_one_toast (c : State) (w : fetch_outcome) :
  completed (run c (handleStartTeleoperation c w)) = true
  ∧ length (List.filter is_toast (effects (run c (handleStartTeleoperation c w)))) = 1%nat
  ∧ (length (List.filter is_fetch (effects (run c (handleStartTeleoperation c w)))) ≤ 1)%nat.
Proof.
  unfold handleStartTeleoperation.
  destruct (not_str (leaderConfig c) || not_str (followerConfig c)).
  { repeat split. cbn. lia. }
  by_answer w; repeat split; cbn; lia.
Qed.

(** ** Loading the configurations *)

(** X4.  [loadConfigs] never looks at the status of the response: an error
    response is handled exactly like a successful one with the same body.
    So an error response whose body is a JSON object without the two lists
    empties both stored lists and raises no toast. *)
Theorem loadConfigs_ignores_status (s : State) (ok ok' : bool) (j : error + value) :
  run s (loadConfigs (FetchResponse ok j)) = run s (loadConfigs (FetchResponse ok' j))
  ∧ (∀ fields,
       j = inr (VObj fields) →
       own_prop fields "leader_configs" = VUndefined →
       own_prop fields "follower_configs" = VUndefined →
       effects (run s (loadConfigs (FetchResponse false j))) =
         [EFetch (Request "http://localhost:8000/get-configs" "GET" [] None)]
       ∧ leaderConfigs (final (run s (loadConfigs (FetchResponse false j)))) = VArr []
       ∧ followerConfigs (final (run s (loadConfigs (FetchResponse false j)))) = VArr []).
Proof.
  split.
  - destruct j as [e | []]; reflexivity.
  - intros fields -> Hl Hf. cbn. unfold logical_or. by rewrite Hl, Hf.
Qed.

Lemma loadConfigs_ignores_status_witness :
  effects
    (run configuredState
       (loadConfigs (FetchResponse false (inr (VObj [("detail", VStr "Not Found")])))))
  = [EFetch (Request "http://localhost:8000/get-configs" "GET" [] None)]
  ∧ leaderConfigs
      (final (run configuredState
         (loadConfigs (FetchResponse false (inr (VObj [("detail", VStr "Not Found")]))))))
    = VArr []
  ∧ followerConfigs
      (final (run configuredState
         (loadConfigs (FetchResponse false (inr (VObj [("detail", VStr "Not Found")]))))))
    = VArr [].
Proof.
  destruct (loadConfigs_ignores_status configuredState false false
              (inr (VObj [("detail", VStr "Not Found")]))) as [_ Hclear].
  apply (Hclear _ eq_refl); reflexivity.
Defined.

Lemma readable_props (w : fetch_outcome) :
  readable w = true →
  ∃ ok data, w = FetchResponse ok (inr data)
    ∧ ∀ k, ∃ v, get_prop data k = inr v.
Proof.
  by_outcome w; try discriminate; intros _; do 2 eexists;
    (split; [reflexivity | intros k; eexists; reflexivity]).
Qed.

Lemma loadConfigs_readable (s : State) (ok : bool) (data lc fc : value) :
  get_prop data "leader_configs" = inr lc →
  get_prop data "follower_configs" = inr fc →
  run s (loadConfigs (FetchResponse ok (inr data))) =
  (inr tt,
   Store (mkState (robotModel s) (showPermissionModal s) (showTeleoperationModal s)
            (leaderPort s) (followerPort s) (leaderConfig s) (followerConfig s)
            (logical_or lc (VArr [])) (logical_or fc (VArr [])) false)
     ∅ [EFetch (Request "http://localhost:8000/get-configs" "GET" [] None)]).
Proof.
  intros Hlc Hfc.
  destruct data; cbn in Hlc, Hfc; try discriminate;
    injection Hlc as <-; injection Hfc as <-; reflexivity.
Qed.

Lemma loadConfigs_unreadable (s : State) (w : fetch_outcome) :
  readable w = false →
  run s (loadConfigs w) =
  (inr tt,
   Store (mkState (robotModel s) (showPermissionModal s) (showTeleoperationModal s)
            (leaderPort s) (followerPort s) (leaderConfig s) (followerConfig s)
            (leaderConfigs s) (followerConfigs s) false)
     ∅ [EFetch (Request "http://localhost:8000/get-configs" "GET" [] None);
        EToast errorLoadingConfigs]).
Proof. by_outcome w; try discriminate; reflexivity. Qed.

(** X5.  The two lists are stored together or not at all, and the error toast
    tells which: for a readable answer both lists are replaced (by what the
    body holds, or by the empty list where that is falsy) and no toast is
    shown; for any other answer, a [null] body included, the one toast is
    "Error Loading Configs" and both lists stay as they were. *)
Theorem loadConfigs_all_or_nothing (s : State) (w : fetch_outcome) :
  (readable w = true
   ∧ List.filter is_toast (effects (run s (loadConfigs w))) = []
   ∧ ∃ ok data lc fc,
       w = FetchResponse ok (inr data)
       ∧ get_prop data "leader_configs" = inr lc
       ∧ get_prop data "follower_configs" = inr fc
       ∧ leaderConfigs (final (run s (loadConfigs w))) = logical_or lc (VArr [])
       ∧ followerConfigs (final (run s (loadConfigs w))) = logical_or fc (VArr []))
  ∨ (readable w = false
     ∧ List.filter is_toast (effects (run s (loadConfigs w))) = [EToast errorLoadingConfigs]
     ∧ leaderConfigs (final (run s (loadConfigs w))) = leaderConfigs s
     ∧ followerConfigs (final (run s (loadConfigs w))) = followerConfigs s).
Proof.
  destruct (readable w) eqn:Hr.
  - left. split; [reflexivity |].
    destruct (readable_props w Hr) as (ok & data & -> & Hprops).
    destruct (Hprops "leader_configs") as [lc Hlc].
    destruct (Hprops "follower_configs") as [fc Hfc].
    rewrite (loadConfigs_readable s ok data lc fc Hlc Hfc).
    split; [reflexivity |]. by exists ok, data, lc, fc.
  - right. rewrite (loadConfigs_unreadable s w Hr). by repeat split.
Qed.

Lemma logical_or_array (v : value) :
  array_or_falsy v = true → is_array (logical_or v (VArr [])) = true.
Proof.
  unfold array_or_falsy, logical_or.
  destruct v as [ | | b | z | x | xs | fs ]; cbn; try done.
  - by destruct b.
  - by destruct (z =? 0).
  - by destruct (String.eqb x "").
Qed.

Lemma dialogOptions_arrays (s : State) :
  is_array (leaderConfigs s) = true → is_array (followerConfigs s) = true →
  ∃ leader follower, dialogOptions s = inr (leader, follower).
Proof.
  unfold dialogOptions. destruct (leaderConfigs s); try discriminate.
  destruct (followerConfigs s); try discriminate. cbn. eauto.
Qed.

Lemma dialogOptions_not_array (s : State) :
  is_array (leaderConfigs s) = false ∨ is_array (followerConfigs s) = false →
  ∃ e, dialogOptions s = inl e.
Proof.
  unfold dialogOptions.
  destruct (leaderConfigs s), (followerConfigs s); cbn; intros [? | ?];
    try discriminate; eauto.
Qed.

(** X6.  The configuration dialog can render its two option lists as long as both
    stored values are arrays.  [loadConfigs] keeps it so on every failure
    path and whenever each list of the body is an array or falsy; but a
    truthy value that is no array (a string, a number, an object) is stored
    as it is, and the next render throws. *)
Theorem loadConfigs_keeps_dialog_renderable (s : State) (w : fetch_outcome) :
  is_array (leaderConfigs s) = true → is_array (followerConfigs s) = true →
  (((∀ ok data lc fc,
       w = FetchResponse ok (inr data) →
       get_prop data "leader_configs" = inr lc →
       get_prop data "follower_configs" = inr fc →
       array_or_falsy lc = true ∧ array_or_falsy fc = true) →
    ∃ leader follower,
      dialogOptions (final (run s (loadConfigs w))) = inr (leader, follower))
   ∧ (∀ ok data lc,
        w = FetchResponse ok (inr data) →
        get_prop data "leader_configs" = inr lc →
        truthy lc = true → is_array lc = false →
        leaderConfigs (final (run s (loadConfigs w))) = lc
        ∧ ∃ e, dialogOptions (final (run s (loadConfigs w))) = inl e)).
Proof.
  intros Hl Hf. split.
  - intros Hbody. apply dialogOptions_arrays.
    + destruct (readable w) eqn:Hr.
      * destruct (readable_props w Hr) as (ok & data & -> & Hprops).
        destruct (Hprops "leader_configs") as [lc Hlc].
        destruct (Hprops "follower_configs") as [fc Hfc].
        rewrite (loadConfigs_readable s ok data lc fc Hlc Hfc). cbn.
        apply logical_or_array. by destruct (Hbody _ _ _ _ eq_refl Hlc Hfc).
      * by rewrite (loadConfigs_unreadable s w Hr).
    + destruct (readable w) eqn:Hr.
      * destruct (readable_props w Hr) as (ok & data & -> & Hprops).
        destruct (Hprops "leader_configs") as [lc Hlc].
        destruct (Hprops "follower_configs") as [fc Hfc].
        rewrite (loadConfigs_readable s ok data lc fc Hlc Hfc). cbn.
        apply logical_or_array. by destruct (Hbody _ _ _ _ eq_refl Hlc Hfc).
      * by rewrite (loadConfigs_unreadable s w Hr).
  - intros ok data lc -> Hlc Htruthy Hnot.
    assert (Hfc : ∃ fc, get_prop data "follower_configs" = inr fc).
    { destruct data; cbn in Hlc |- *; try discriminate; eauto. }
    destruct Hfc as [fc Hfc].
    rewrite (loadConfigs_readable s ok data lc fc Hlc Hfc). cbn.
    rewrite (logical_or_truthy lc _ Htruthy).
    split; [reflexivity |].
    apply dialogOptions_not_array. by left.
Qed.

Lemma loadConfigs_keeps_dialog_renderable_witness :
  (∃ leader follower,
     dialogOptions
       (final (run configuredState
          (loadConfigs
             (FetchResponse true
                (inr (VObj [("leader_configs", VArr [VStr "a"; VStr "b"]);
                            ("follower_configs", VNull)]))))))
     = inr (leader, follower))
  ∧ (leaderConfigs
       (final (run configuredState
          (loadConfigs
             (FetchResponse true (inr (VObj [("leader_configs", VStr "a,b")]))))))
     = VStr "a,b"
     ∧ ∃ e,
         dialogOptions
           (final (run configuredState
              (loadConfigs
                 (FetchResponse true (inr (VObj [("leader_configs", VStr "a,b")]))))))
         = inl e).
Proof.
  split.
  - apply (loadConfigs_keeps_dialog_renderable configuredState); [done | done |].
    intros ok data lc fc Hw Hlc Hfc. injection Hw as _ <-.
    cbn in Hlc, Hfc. injection Hlc as <-. injection Hfc as <-. done.
  - destruct (loadConfigs_keeps_dialog_renderable configuredState
                (FetchResponse true (inr (VObj [("leader_configs", VStr "a,b")]))))
      as [_ Hbad]; [done | done |].
    apply (Hbad true _ _ eq_refl); reflexivity.
Defined.

(** ** Opening the configuration dialog *)

Lemma loadConfigs_run (s : State) (w : fetch_outcome) :
  ∃ lc fc toasts,
    run s (loadConfigs w) =
    (inr tt,
     Store (mkState (robotModel s) (showPermissionModal s) (showTeleoperationModal s)
              (leaderPort s) (followerPort s) (leaderConfig s) (followerConfig s)
              lc fc false)
       ∅ (EFetch (Request "http://localhost:8000/get-configs" "GET" [] None) :: toasts))
    ∧ List.filter is_fetch toasts = [] ∧ List.filter is_navigate toasts = [].
Proof.
  destruct (readable w) eqn:Hr.
  - destruct (readable_props w Hr) as (ok & data & -> & Hprops).
    destruct (Hprops "leader_configs") as [lc Hlc].
    destruct (Hprops "follower_configs") as [fc Hfc].
    rewrite (loadConfigs_readable s ok data lc fc Hlc Hfc).
    by exists (logical_or lc (VArr [])), (logical_or fc (VArr [])), [].
  - rewrite (loadConfigs_unreadable s w Hr).
    by exists (leaderConfigs s), (followerConfigs s), [EToast errorLoadingConfigs].
Qed.

(** What [handleTeleoperationClick] leaves behind when a robot model is
    chosen: the dialog open, the loading flag down, one request sent. *)
Lemma click_run (s : State) (w : fetch_outcome) :
  robotModel s ≠ "" →
  ∃ lc fc toasts,
    run s (handleTeleoperationClick s w) =
    (inr tt,
     Store (mkState (robotModel s) (showPermissionModal s) true
              (leaderPort s) (followerPort s) (leaderConfig s) (followerConfig s)
              lc fc false)
       ∅ (EFetch (Request "http://localhost:8000/get-configs" "GET" [] None) :: toasts))
    ∧ List.filter is_fetch toasts = [] ∧ List.filter is_navigate toasts = [].
Proof.
  intros Hrobot. apply not_str_false in Hrobot.
  unfold handleTeleoperationClick. rewrite Hrobot. cbn [negb].
  unfold run, bind. cbn [setShowTeleoperationModal modify state stopped trace].
  match goal with |- context [loadConfigs w (Store ?s1 ∅ [])] =>
    destruct (loadConfigs_run s1 w) as (lc & fc & toasts & Hrun & Hrest) end.
  unfold run in Hrun. rewrite Hrun. cbn. by exists lc, fc, toasts.
Qed.

(** X7.  The "Teleoperation" button is disabled exactly when no robot model
    is chosen, and then its handler would do nothing at all.  With a model
    chosen the handler returns at once with the dialog open, the request for
    the configurations sent and the loading flag up, so "Start
    Teleoperation" is disabled while the request is pending.  Once the
    request has settled, whatever its outcome, the [loadConfigs] call the
    handler started has ended without throwing (its promise does not
    reject): the dialog is open, the loading flag is down and "Start
    Teleoperation" enabled again, that one GET is the only request made,
    nothing has navigated, and the ports and the selected configs are what
    they were. *)
Theorem teleoperation_click (s : State) (w : fetch_outcome) :
  (sessionButtonsDisabled s = true ↔ robotModel s = "")
  ∧ (robotModel s = "" →
       run s (handleTeleoperationClickReturn s) = (inr tt, Store s ∅ [])
       ∧ run s (handleTeleoperationClick s w) = (inr tt, Store s ∅ []))
  ∧ (robotModel s ≠ "" →
       run s (handleTeleoperationClickReturn s) =
         (inr tt,
          Store (mkState (robotModel s) (showPermissionModal s) true
                   (leaderPort s) (followerPort s) (leaderConfig s) (followerConfig s)
                   (leaderConfigs s) (followerConfigs s) true)
            ∅ [EFetch (Request "http://localhost:8000/get-configs" "GET" [] None)])
       ∧ startDisabled (final (run s (handleTeleoperationClickReturn s))) = true
       ∧ (∃ later,
            effects (run s (handleTeleoperationClick s w)) =
            (effects (run s (handleTeleoperationClickReturn s)) ++ later)%list)
       ∧ completed (run s (handleTeleoperationClick s w)) = true
       ∧ showTeleoperationModal (final (run s (handleTeleoperationClick s w))) = true
       ∧ startDisabled (final (run s (handleTeleoperationClick s w))) = false
       ∧ List.filter is_fetch (effects (run s (handleTeleoperationClick s w))) =
           [EFetch (Request "http://localhost:8000/get-configs" "GET" [] None)]
       ∧ List.filter is_navigate (effects (run s (handleTeleoperationClick s w))) = []
       ∧ leaderPort (final (run s (handleTeleoperationClick s w))) = leaderPort s
       ∧ followerPort (final (run s (handleTeleoperationClick s w))) = followerPort s
       ∧ leaderConfig (final (run s (handleTeleoperationClick s w))) = leaderConfig s
       ∧ followerConfig (final (run s (handleTeleoperationClick s w))) = followerConfig s).
Proof.
  split; [apply not_str_true |]. split.
  - intros Hnone. unfold handleTeleoperationClickReturn, handleTeleoperationClick.
    by rewrite (proj2 (not_str_true _) Hnone).
  - intros Hrobot.
    destruct (click_run s w Hrobot) as (lc & fc & toasts & -> & Hfetch & Hnav).
    apply not_str_false in Hrobot.
    unfold handleTeleoperationClickReturn. rewrite Hrobot. cbn [negb].
    split; [reflexivity |]. split; [reflexivity |].
    split; [by exists toasts |].
    unfold completed, final, effects, startDisabled. cbn. rewrite Hfetch, Hnav.
    by repeat split.
Qed.

Lemma teleoperation_click_witness :
  run initialState
    (handleTeleoperationClick initialState (FetchRejected (TypeError "Failed to fetch")))
  = (inr tt, Store initialState ∅ [])
  ∧ startDisabled (final (run configuredState (handleTeleoperationClickReturn configuredState)))
    = true
  ∧ startDisabled
      (final (run configuredState
                (handleTeleoperationClick configuredState
                   (FetchRejected (TypeError "Failed to fetch"))))) = false.
Proof.
  split; [| split].
  - destruct (teleoperation_click initialState
                (FetchRejected (TypeError "Failed to fetch"))) as (_ & Hnone & _).
    by apply Hnone.
  - destruct (teleoperation_click configuredState
                (FetchRejected (TypeError "Failed to fetch"))) as (_ & _ & Hsome).
    by destruct Hsome as (_ & Hpending & _).
  - destruct (teleoperation_click configuredState
                (FetchRejected (TypeError "Failed to fetch"))) as (_ & _ & Hsome).
    by destruct Hsome as (_ & _ & _ & _ & _ & Hdown & _).
Defined.

(** X8.  Opening the dialog selects nothing: if a config was unselected when the
    operator clicked "Teleoperation", then in the render that follows, with
    the lists loaded or not, "Start Teleoperation" still answers with the
    "Missing Configuration" toast and sends nothing. *)
Theorem click_then_start_needs_selection (s : State) (w w' : fetch_outcome) :
  leaderConfig s = "" ∨ followerConfig s = "" →
  run (final (run s (handleTeleoperationClick s w)))
      (handleStartTeleoperation (final (run s (handleTeleoperationClick s w))) w')
  = (inr tt,
     Store (final (run s (handleTeleoperationClick s w))) ∅
       [EToast missingConfiguration]).
Proof.
  intros Hmissing.
  assert (Hkept :
    leaderConfig (final (run s (handleTeleoperationClick s w))) = leaderConfig s
    ∧ followerConfig (final (run s (handleTeleoperationClick s w))) = followerConfig s).
  { destruct (not_str (robotModel s)) eqn:Hrobot.
    - unfold handleTeleoperationClick. by rewrite Hrobot.
    - apply not_str_false in Hrobot.
      by destruct (click_run s w Hrobot) as (lc & fc & toasts & -> & _). }
  destruct Hkept as [Hl Hf].
  unfold handleStartTeleoperation. rewrite Hl, Hf.
  by rewrite (unselected _ _ Hmissing).
Qed.

Lemma click_then_start_needs_selection_witness :
  effects
    (run (final (run halfConfiguredState
                   (handleTeleoperationClick halfConfiguredState
                      (FetchResponse true (inr (VObj [("leader_configs", VArr [])]))))))
       (handleStartTeleoperation
          (final (run halfConfiguredState
                    (handleTeleoperationClick halfConfiguredState
                       (FetchResponse true (inr (VObj [("leader_configs", VArr [])]))))))
          (FetchResponse true (inr (VObj [("message", VStr "started")])))))
  = [EToast missingConfiguration].
Proof.
  rewrite (click_then_start_needs_selection halfConfiguredState).
  - reflexivity.
  - right. reflexivity.
Defined.

(** ** The permission step *)

Lemma granted_run (s : State) (tracks : list nat) :
  run s (handlePermissions true (MediaStream tracks)) =
  (inr tt,
   Store (final (run s (setShowPermissionModal false)))
     (list_to_set tracks ∪ ∅)
     (EGetUserMedia true true
        :: (map EStopTrack tracks ++ [EToast permissionsGranted; ENavigate "/control"]))).
Proof.
  unfold handlePermissions, run, try_catch, getUserMedia, bind.
  cbn -[forEach]. rewrite forEach_stop. cbn. by rewrite <- app_assoc.
Qed.

Lemma filter_toast_stops (tracks : list nat) :
  List.filter is_toast (map EStopTrack tracks) = [].
Proof. induction tracks; [reflexivity | assumption]. Qed.

Lemma stop_among_stops (t : nat) (tracks : list nat) (rest : list effect) :
  (∀ e, e ∈ rest → e ≠ EStopTrack t) →
  EStopTrack t ∈ (map EStopTrack tracks ++ rest)%list → t ∈ tracks.
Proof.
  intros Hrest Hin. apply elem_of_app in Hin as [Hin | Hin].
  - apply list_elem_of_fmap in Hin as (t' & Heq & Hin). by injection Heq as ->.
  - by destruct (Hrest _ Hin).
Qed.

Lemma permissions_navigation (s : State) (allow : bool) (w : media_outcome) (p : string) :
  ENavigate p ∈ effects (run s (handlePermissions allow w)) → p = "/control".
Proof.
  destruct allow; [destruct w as [e | tracks] |].
  - cbn. intros Hp. no_member Hp.
  - rewrite granted_run. unfold effects. cbn [snd trace]. intros Hp.
    apply elem_of_cons in Hp as [Hp | Hp]; [discriminate |].
    apply elem_of_app in Hp as [Hp | Hp].
    + apply list_elem_of_fmap in Hp as (t' & Heq & _). discriminate.
    + no_member Hp. by injection Hp as ->.
  - cbn. intros Hp. no_member Hp. by injection Hp as ->.
Qed.

(** [handlePermissions] where the browser has media devices. *)
Lemma permissions_with_devices (s : State) (allow : bool) (w : media_outcome) :
  completed (run s (handlePermissions allow w)) = true
  ∧ final (run s (handlePermissions allow w)) = final (run s (setShowPermissionModal false))
  ∧ length (List.filter is_toast (effects (run s (handlePermissions allow w)))) = 1%nat
  ∧ (EGetUserMedia true true ∈ effects (run s (handlePermissions allow w)) ↔ allow = true)
  ∧ (∀ t, EStopTrack t ∈ effects (run s (handlePermissions allow w))
          ∨ t ∈ ended (run s (handlePermissions allow w)) →
          allow = true ∧ ∃ tracks, w = MediaStream tracks ∧ t ∈ tracks)
  ∧ (∀ p, ENavigate p ∈ effects (run s (handlePermissions allow w)) → p = "/control").
Proof.
  assert (Hnav : ∀ p, ENavigate p ∈ effects (run s (handlePermissions allow w)) →
                       p = "/control") by apply permissions_navigation.
  revert Hnav.
  destruct allow; [destruct w as [e | tracks] |]; intros Hnav.
  - (* allowed, rejected *)
    revert Hnav.
    change (run s (handlePermissions true (MediaRejected e)))
      with (@inr error unit tt,
            Store (final (run s (setShowPermissionModal false))) ∅
              [EGetUserMedia true true; EToast permissionRequired]).
    unfold completed, final, effects, ended. cbn [fst snd state trace stopped].
    intros Hnav.
    split; [done |]. split; [done |]. split; [done |].
    split; [split; [done | intros _; constructor] |].
    split; [| exact Hnav].
    intros t [Ht | Ht]; [no_member Ht | by apply elem_of_empty in Ht].
  - (* allowed, stream acquired *)
    revert Hnav. rewrite granted_run. unfold completed, final, effects, ended.
    cbn [fst snd state trace stopped]. intros Hnav.
    split; [done |]. split; [done |]. split.
    { cbn [List.filter is_toast]. rewrite List.filter_app, filter_toast_stops. reflexivity. }
    split; [split; [done | intros _; constructor] |].
    split; [| exact Hnav].
    intros t Ht. split; [done |]. exists tracks. split; [done |].
    destruct Ht as [Ht | Ht].
    + apply elem_of_cons in Ht as [Ht | Ht]; [discriminate |].
      apply (stop_among_stops t tracks _) in Ht; [done |].
      intros e He. no_member He; subst; discriminate.
    + rewrite (right_id_L ∅ (∪)) in Ht. by apply elem_of_list_to_set in Ht.
  - (* declined *)
    revert Hnav.
    change (run s (handlePermissions false w))
      with (@inr error unit tt,
            Store (final (run s (setShowPermissionModal false))) ∅
              [EToast permissionDeclined; ENavigate "/control"]).
    unfold completed, final, effects, ended. cbn [fst snd state trace stopped].
    intros Hnav.
    split; [done |]. split; [done |]. split; [done |].
    split; [split; [intros Hm; no_member Hm | discriminate] |].
    split; [| exact Hnav].
    intros t [Ht | Ht]; [no_member Ht | by apply elem_of_empty in Ht].
Qed.

Lemma handlePermissionsIn_devices (allow : bool) (w : media_outcome) :
  handlePermissionsIn allow (MediaDevices w) = handlePermissions allow w.
Proof. reflexivity. Qed.

(** X9.  [handlePermissions] in all its outcomes, a browser without
    [navigator.mediaDevices] included: it never throws, leaves the
    permission dialog closed and the rest of the state untouched, and shows
    exactly one toast.  It asks the browser for the devices exactly when the
    operator allowed it and the browser has media devices; without them it
    shows the "access is required" toast and nothing else.  The only tracks
    it stops are tracks of the stream the request gave it, and the only
    place it navigates to is [/control]. *)
Theorem permissions_step (s : State) (allow : bool) (env : media_devices) :
  completed (run s (handlePermissionsIn allow env)) = true
  ∧ final (run s (handlePermissionsIn allow env))
    = final (run s (setShowPermissionModal false))
  ∧ length (List.filter is_toast (effects (run s (handlePermissionsIn allow env)))) = 1%nat
  ∧ (EGetUserMedia true true ∈ effects (run s (handlePermissionsIn allow env))
     ↔ allow = true ∧ env ≠ NoMediaDevices)
  ∧ (allow = true → env = NoMediaDevices →
       effects (run s (handlePermissionsIn allow env)) = [EToast permissionRequired])
  ∧ (∀ t, EStopTrack t ∈ effects (run s (handlePermissionsIn allow env))
          ∨ t ∈ ended (run s (handlePermissionsIn allow env)) →
          allow = true ∧ ∃ tracks, env = MediaDevices (MediaStream tracks) ∧ t ∈ tracks)
  ∧ (∀ p, ENavigate p ∈ effects (run s (handlePermissionsIn allow env)) → p = "/control")
  ∧ (∀ w, env = MediaDevices w →
       run s (handlePermissionsIn allow env) = run s (handlePermissions allow w)).
Proof.
  destruct env as [| w].
  - (* no media devices *)
    destruct allow.
    + change (run s (handlePermissionsIn true NoMediaDevices))
        with (@inr error unit tt,
              Store (final (run s (setShowPermissionModal false))) ∅
                [EToast permissionRequired]).
      unfold completed, final, effects, ended. cbn [fst snd state trace stopped].
      split; [done |]. split; [done |]. split; [done |].
      split; [split; [intros Hm; no_member Hm | by intros [_ Hne]] |].
      split; [done |].
      split; [intros t [Ht | Ht]; [no_member Ht | by apply elem_of_empty in Ht] |].
      split; [intros p Hp; no_member Hp | discriminate].
    + change (run s (handlePermissionsIn false NoMediaDevices))
        with (@inr error unit tt,
              Store (final (run s (setShowPermissionModal false))) ∅
                [EToast permissionDeclined; ENavigate "/control"]).
      unfold completed, final, effects, ended. cbn [fst snd state trace stopped].
      split; [done |]. split; [done |]. split; [done |].
      split; [split; [intros Hm; no_member Hm | by intros [Hallow _]] |].
      split; [discriminate |].
      split; [intros t [Ht | Ht]; [no_member Ht | by apply elem_of_empty in Ht] |].
      split; [intros p Hp; no_member Hp; by injection Hp as -> | discriminate].
  - (* media devices: the handler of the page *)
    rewrite handlePermissionsIn_devices.
    destruct (permissions_with_devices s allow w)
      as (Hdone & Hfinal & Htoast & Hask & Hstop & Hnav).
    split; [done |]. split; [done |]. split; [done |].
    split.
    { rewrite Hask. split; [by intros -> | by intros [-> _]]. }
    split; [discriminate |].
    split.
    { intros t Ht. destruct (Hstop t Ht) as (-> & tracks & -> & Hin). eauto. }
    split; [done |]. by intros w' [= ->].
Qed.

Lemma permissions_step_witness :
  EGetUserMedia true true
    ∈ effects (run initialState
                 (handlePermissionsIn true (MediaDevices (MediaStream [4%nat; 9%nat]))))
  ∧ effects (run initialState (handlePermissionsIn true NoMediaDevices))
    = [EToast permissionRequired]
  ∧ run initialState
      (handlePermissionsIn true
         (MediaDevices (MediaRejected (DOMException "NotAllowedError" "Permission denied"))))
    = run initialState
        (handlePermissions true
           (MediaRejected (DOMException "NotAllowedError" "Permission denied"))).
Proof.
  split; [| split].
  - destruct (permissions_step initialState true
                (MediaDevices (MediaStream [4%nat; 9%nat]))) as (_ & _ & _ & Hask & _).
    apply Hask. by split.
  - destruct (permissions_step initialState true NoMediaDevices)
      as (_ & _ & _ & _ & Hnone & _).
    by apply Hnone.
  - destruct (permissions_step initialState true
                (MediaDevices
                   (MediaRejected (DOMException "NotAllowedError" "Permission denied"))))
      as (_ & _ & _ & _ & _ & _ & _ & Hsame).
    by apply Hsame.
Defined.

(** X10.  "Begin Session" and the answer to the permission dialog undo each other
    on the state: with a robot model chosen and the dialog closed,
    [handleBeginSession] opens the dialog without any effect, and whatever
    the operator answers and the browser does, [handlePermissions] brings
    the component back to the state it had before the click.  Without a
    robot model the click does nothing. *)
Theorem begin_session_round_trip (s : State) (allow : bool) (w : media_outcome) :
  (robotModel s = "" → run s (handleBeginSession s) = (inr tt, Store s ∅ []))
  ∧ (robotModel s ≠ "" → showPermissionModal s = false →
       effects (run s (handleBeginSession s)) = []
       ∧ showPermissionModal (final (run s (handleBeginSession s))) = true
       ∧ final (run (final (run s (handleBeginSession s))) (handlePermissions allow w)) = s).
Proof.
  split.
  - intros Hnone. unfold handleBeginSession. by rewrite (proj2 (not_str_true _) Hnone).
  - intros Hrobot Hclosed. apply not_str_false in Hrobot.
    unfold handleBeginSession. rewrite Hrobot. cbn [negb].
    split; [reflexivity |]. split; [reflexivity |].
    destruct allow; [destruct w as [e | tracks] |].
    + destruct s. cbn in *. by subst.
    + rewrite granted_run. destruct s. cbn in *. by subst.
    + destruct s. cbn in *. by subst.
Qed.

Lemma begin_session_round_trip_witness :
  final (run (final (run configuredState (handleBeginSession configuredState)))
           (handlePermissions true (MediaStream [0%nat; 1%nat])))
  = configuredState.
Proof.
  destruct (begin_session_round_trip configuredState true (MediaStream [0%nat; 1%nat]))
    as [_ Hround].
  by destruct Hround as (_ & _ & Hback).
Defined.

(** ** The static page *)

Lemma onload_body_run (p : StaticPage.Page) (ok : bool) (data : value) :
  run p (StaticPage.onload (FetchResponse ok (inr data))) =
  (inr tt,
   Store
     match get_prop data "leader_configs" with
     | inl e => loadFailure [] [] e
     | inr lc =>
         match forEach_items lc "data.leader_configs" with
         | inl e => loadFailure [] [] e
         | inr L =>
             match get_prop data "follower_configs" with
             | inl e => loadFailure L [] e
             | inr fc =>
                 match forEach_items fc "data.follower_configs" with
                 | inl e => loadFailure L [] e
                 | inr F => StaticPage.mkPage L F (StaticPage.response p)
                 end
             end
         end
     end
     ∅ [EFetch StaticPage.getConfigsRequest]).
Proof.
  unfold StaticPage.onload, run. rewrite try_catch_fetch.
  unfold try_catch, json, prop. cbn [snd lift]. unfold bind at 1. cbn [ret].
  unfold bind at 1. cbn [StaticPage.setLeaderOptions modify].
  unfold bind at 1. cbn [StaticPage.setFollowerOptions modify].
  unfold bind at 1.
  destruct (get_prop data "leader_configs") as [e | lc]; [reflexivity |].
  cbn [lift ret]. unfold bind at 1.
  destruct (forEach_items lc "data.leader_configs") as [e | L]; [reflexivity |].
  cbn [lift ret]. unfold bind at 1. rewrite forEach_appendLeaderOption.
  unfold bind at 1.
  destruct (get_prop data "follower_configs") as [e | fc]; [reflexivity |].
  cbn [lift ret]. unfold bind at 1.
  destruct (forEach_items fc "data.follower_configs") as [e | F]; [reflexivity |].
  cbn [lift ret]. rewrite forEach_appendFollowerOption. reflexivity.
Qed.

(** X11.  [onload] never throws, and what a failed load leaves on the page depends
    on where it failed.  If the request is rejected or its body does not
    parse, the two [select] elements keep what they had (the "Loading
    configs..." placeholder on a fresh page).  If the body is there but
    [leader_configs] cannot be iterated, both are left empty.  If
    [leader_configs] is an array but [follower_configs] cannot be iterated,
    the leader options are filled in and the follower ones left empty.  In
    each case [#response] shows "Error loading configs: " and the error's
    message. *)
Theorem onload_failures (p : StaticPage.Page) (w : fetch_outcome) :
  completed (run p (StaticPage.onload w)) = true
  ∧ (∀ e, w = FetchRejected e ∨ (∃ ok, w = FetchResponse ok (inl e)) →
       final (run p (StaticPage.onload w)) =
       loadFailure (StaticPage.leaderOptions p) (StaticPage.followerOptions p) e)
  ∧ (∀ ok data e,
       w = FetchResponse ok (inr data) →
       (get_prop data "leader_configs" = inl e
        ∨ ∃ lc, get_prop data "leader_configs" = inr lc
                ∧ forEach_items lc "data.leader_configs" = inl e) →
       final (run p (StaticPage.onload w)) = loadFailure [] [] e)
  ∧ (∀ ok data L fc e,
       w = FetchResponse ok (inr data) →
       get_prop data "leader_configs" = inr (VArr L) →
       get_prop data "follower_configs" = inr fc →
       forEach_items fc "data.follower_configs" = inl e →
       final (run p (StaticPage.onload w)) = loadFailure L [] e).
Proof.
  split; [| split; [| split]].
  - destruct w as [e | ok [e | data]]; [reflexivity | reflexivity |].
    by rewrite onload_body_run.
  - intros e [-> | [ok ->]]; by destruct p.
  - intros ok data e -> Hfail. rewrite onload_body_run. unfold final. cbn [snd state].
    destruct Hfail as [-> | (lc & -> & ->)]; reflexivity.
  - intros ok data L fc e -> HL Hfc Hfail. rewrite onload_body_run.
    unfold final. cbn [snd state]. rewrite HL, Hfc. cbn [forEach_items].
    by rewrite Hfail.
Qed.

Lemma onload_failures_witness :
  final (run StaticPage.initialPage
           (StaticPage.onload (FetchRejected (TypeError "Failed to fetch"))))
  = loadFailure [VStr ""] [VStr ""] (TypeError "Failed to fetch")
  ∧ final (run StaticPage.initialPage
             (StaticPage.onload
                (FetchResponse true
                   (inr (VObj [("leader_configs", VArr [VStr "so100_leader"])])))))
    = loadFailure [VStr "so100_leader"] []
        (TypeError "Cannot read properties of undefined (reading 'forEach')").
Proof.
  split.
  - destruct (onload_failures StaticPage.initialPage
                (FetchRejected (TypeError "Failed to fetch"))) as (_ & Hreq & _).
    apply Hreq. by left.
  - destruct (onload_failures StaticPage.initialPage
                (FetchResponse true
                   (inr (VObj [("leader_configs", VArr [VStr "so100_leader"])]))))
      as (_ & _ & _ & Hfollower).
    by apply (Hfollower true _ _ VUndefined _ eq_refl).
Defined.

(** X12.  [moveArm] does not look at the status of the response either: it writes
    the body's [message] in [#response] for an error response just as for a
    successful one, and a body without [message] makes it write [undefined]
    rather than a stock text.  A rejected request or an unreadable body
    makes it write "Error: " and the error's message.  It never throws and
    never touches the options of the two [select] elements. *)
Theorem moveArm_answers (p : StaticPage.Page) (f : StaticPage.Form) (w : fetch_outcome) :
  completed (run p (StaticPage.moveArm f w)) = true
  ∧ StaticPage.leaderOptions (final (run p (StaticPage.moveArm f w)))
    = StaticPage.leaderOptions p
  ∧ StaticPage.followerOptions (final (run p (StaticPage.moveArm f w)))
    = StaticPage.followerOptions p
  ∧ (∀ ok ok' j,
       run p (StaticPage.moveArm f (FetchResponse ok j)) =
       run p (StaticPage.moveArm f (FetchResponse ok' j)))
  ∧ (StaticPage.leaderConfig f ≠ "" → StaticPage.followerConfig f ≠ "" →
       (∀ e, failure w "message" = Some e →
          StaticPage.response (final (run p (StaticPage.moveArm f w)))
          = VStr ("Error: " ++ error_message e))
       ∧ (∀ ok fields,
            w = FetchResponse ok (inr (VObj fields)) →
            own_prop fields "message" = VUndefined →
            StaticPage.response (final (run p (StaticPage.moveArm f w))) = VUndefined)).
Proof.
  unfold StaticPage.moveArm.
  destruct (not_str (StaticPage.leaderConfig f)
            || not_str (StaticPage.followerConfig f)) eqn:E.
  - split; [done |]. split; [done |]. split; [done |]. split; [done |].
    intros Hl Hf. apply not_str_false in Hl, Hf. by rewrite Hl, Hf in E.
  - split; [by_outcome w; reflexivity |].
    split; [by_outcome w; reflexivity |].
    split; [by_outcome w; reflexivity |].
    split; [intros ok ok' [e | []]; reflexivity |].
    intros _ _. split.
    + intros e He. by_outcome w; cbn in He; try discriminate;
        injection He as <-; reflexivity.
    + intros ok fields -> Hm. cbn. by rewrite Hm.
Qed.

Lemma moveArm_answers_witness :
  StaticPage.response
    (final (run StaticPage.initialPage
              (StaticPage.moveArm StaticPage.configuredForm
                 (FetchResponse false (inl (SyntaxError "Unexpected token <"))))))
  = VStr "Error: Unexpected token <"
  ∧ StaticPage.response
      (final (run StaticPage.initialPage
                (StaticPage.moveArm StaticPage.configuredForm
                   (FetchResponse false (inr (VObj [("detail", VStr "busy")]))))))
    = VUndefined.
Proof.
  split.
  - destruct (moveArm_answers StaticPage.initialPage StaticPage.configuredForm
                (FetchResponse false (inl (SyntaxError "Unexpected token <"))))
      as (_ & _ & _ & _ & Hsel).
    destruct Hsel as [Herr _]; [discriminate | discriminate |].
    by apply (Herr (SyntaxError "Unexpected token <")).
  - destruct (moveArm_answers StaticPage.initialPage StaticPage.configuredForm
                (FetchResponse false (inr (VObj [("detail", VStr "busy")]))))
      as (_ & _ & _ & _ & Hsel).
    destruct Hsel as [_ Hmsg]; [discriminate | discriminate |].
    by apply (Hmsg false _ eq_refl).
Defined.

(** ** Navigation and the route table *)

Lemma start_navigation (c : State) (w : fetch_outcome) (p : string) :
  ENavigate p ∈ effects (run c (handleStartTeleoperation c w)) → p = "/teleoperation".
Proof.
  unfold handleStartTeleoperation.
  destruct (not_str (leaderConfig c) || not_str (followerConfig c)).
  - cbn. intros Hp. no_member Hp.
  - by_answer w; cbn; intros Hp; no_member Hp; by injection Hp as ->.
Qed.

Lemma click_navigation (s : State) (w : fetch_outcome) :
  List.filter is_navigate (effects (run s (handleTeleoperationClick s w))) = [].
Proof.
  destruct (not_str (robotModel s)) eqn:Hrobot.
  - unfold handleTeleoperationClick. by rewrite Hrobot.
  - apply not_str_false in Hrobot.
    destruct (click_run s w Hrobot) as (lc & fc & toasts & -> & _ & Hnav).
    unfold effects. cbn. exact Hnav.
Qed.

(** X13.  Every navigation the pages perform lands on a route that [App]
    declares, never on the catch-all: whatever the state and the answers,
    [handleStartTeleoperation] can only lead to the teleoperation page,
    [handlePermissions] only to the control page ([Index]), and the back
    button of the teleoperation page leads to the landing page;
    [handleBeginSession], [handleTeleoperationClick] and [loadConfigs] never
    navigate. *)
Theorem navigation_lands_on_routes :
  (∀ c w p,
     ENavigate p ∈ effects (run c (handleStartTeleoperation c w)) →
     App.element_at p = Some App.TeleoperationPage)
  ∧ (∀ s allow w p,
       ENavigate p ∈ effects (run s (handlePermissions allow w)) →
       App.element_at p = Some App.Index)
  ∧ (∀ p,
       ENavigate p ∈ effects (run tt Teleoperation.handleGoBack) →
       App.element_at p = Some App.Landing)
  ∧ (∀ s w,
       List.filter is_navigate (effects (run s (handleBeginSession s))) = []
       ∧ List.filter is_navigate (effects (run s (handleTeleoperationClick s w))) = []
       ∧ List.filter is_navigate (effects (run s (loadConfigs w))) = []).
Proof.
  split; [| split; [| split]].
  - intros c w p Hp. by rewrite (start_navigation c w p Hp).
  - intros s allow w p Hp. by rewrite (permissions_navigation s allow w p Hp).
  - intros p Hp. cbn in Hp. no_member Hp. by injection Hp as ->.
  - intros s w. split; [| split].
    + unfold handleBeginSession. by destruct (not_str (robotModel s)).
    + apply click_navigation.
    + destruct (loadConfigs_run s w) as (lc & fc & toasts & -> & _ & Hnav).
      unfold effects. cbn. exact Hnav.
Qed.

Lemma navigation_lands_on_routes_witness :
  App.element_at "/teleoperation" = Some App.TeleoperationPage
  ∧ App.element_at "/control" = Some App.Index.
Proof.
  destruct navigation_lands_on_routes as (Hstart & Hperm & _).
  split.
  - apply (Hstart configuredState
             (FetchResponse true (inr (VObj [("message", VStr "started")])))).
    cbn. do 2 (apply elem_of_cons; right). apply elem_of_cons. by left.
  - apply (Hperm initialState false (MediaRejected (TypeError "unused"))).
    cbn. apply elem_of_cons; right. apply elem_of_cons. by left.
Defined.

End PageFacts.
